(** * Backup service: scheduling and failure-recovery loop

    Shallow embedding of [backup/scripts/backup_service.py] and the
    properties of its startup checks, of [run_backup] and of the main loop.

    The script is effectful: it reads the process environment, touches the
    file system, sleeps, launches a child process and writes log lines.
    The embedding threads an explicit [state] through a small
    state-and-exception monad; what the outside world answers (environment
    variables, how each child process behaves, whether a sleep is
    interrupted, what the interpreter makes of text outside ASCII) is
    fixed by a [World].  The logger is configured when
    the module is loaded, before [main]; here a log call records its level
    and message in the trace of the process and cannot fail. *)

From Stdlib Require Import ZArith List Bool Lia.
From Stdlib Require Import Strings.String Strings.Ascii.
From stdpp Require Import base gmap strings pretty.
Import ListNotations.

Local Open Scope string_scope.
Local Open Scope Z_scope.
Local Open Scope list_scope.

(** ** Python values the script manipulates *)

(** [errno] values of the [OSError]s that can reach the script. *)
Inductive errno := ENOENT | EEXIST | ENOTDIR | EACCES | ENOEXEC.

(** The exceptions of the script.  [KeyboardInterrupt] and [SystemExit]
    derive from [BaseException] only; all the others derive from
    [Exception].  [ValueError] stands for its subclasses too
    ([UnicodeDecodeError] among them), and [PyException] for an
    [Exception] of any other class. *)
Inductive exn :=
| TimeoutExpired
| ValueError (msg : string)
| OSError (code : errno) (msg : string)
| PyException (msg : string)
| OverflowError (msg : string)
| KeyboardInterrupt
| SystemExit (code : Z).

(** [isinstance(e, Exception)] *)
Definition is_Exception (e : exn) : bool :=
  match e with
  | KeyboardInterrupt | SystemExit _ => false
  | _ => true
  end.

(** [str(e)], as interpolated by the f-strings of the handlers. *)
Definition exn_str (e : exn) : string :=
  match e with
  | TimeoutExpired =>
      "Command '['/app/scripts/backup.sh']' timed out after 300 seconds"
  | ValueError msg | OSError _ msg | PyException msg | OverflowError msg =>
      msg
  | KeyboardInterrupt => EmptyString
  | SystemExit code => pretty code
  end.

(** Truthiness of the value returned by [os.getenv(var)]: [None] and the
    empty string are falsy. *)
Definition truthy (v : option string) : bool :=
  match v with
  | None => false
  | Some EmptyString => false
  | Some (String _ _) => true
  end.

(** [repr] of a text, for its ASCII characters: single quotes unless the
    text has a single quote and no double quote; the quote in use and the
    backslash are escaped, tab, newline and carriage return are written
    with their letter, the other control characters in hexadecimal.  Bytes
    outside ASCII are left as they are, which is what [repr] does with
    printable characters. *)
Definition double_quote : ascii := ascii_of_nat 34.

Definition hex_digit (n : nat) : ascii :=
  nth n (list_ascii_of_string "0123456789abcdef") "0"%char.

Definition repr_char (quote c : ascii) : string :=
  let n := nat_of_ascii c in
  if Ascii.eqb c quote || Ascii.eqb c "\"%char then String "\" (String c EmptyString)
  else if Nat.eqb n 9 then "\t"
  else if Nat.eqb n 10 then "\n"
  else if Nat.eqb n 13 then "\r"
  else if Nat.ltb n 32 || Nat.eqb n 127 then
    String "\" (String "x" (String (hex_digit (n / 16))
                              (String (hex_digit (n mod 16)) EmptyString)))
  else String c EmptyString.

Fixpoint repr_body (quote : ascii) (s : string) : string :=
  match s with
  | EmptyString => EmptyString
  | String c s' => repr_char quote c +:+ repr_body quote s'
  end.

Fixpoint has_char (c : ascii) (s : string) : bool :=
  match s with
  | EmptyString => false
  | String c' s' => Ascii.eqb c c' || has_char c s'
  end.

Definition repr_str (s : string) : string :=
  let quote :=
    if has_char "'"%char s && negb (has_char double_quote s)
    then double_quote else "'"%char in
  String quote (repr_body quote s +:+ String quote EmptyString).

(** [repr] of a list of texts, as [f"{missing_vars}"] prints it. *)

Fixpoint join_comma (l : list string) : string :=
  match l with
  | [] => EmptyString
  | [x] => x
  | x :: rest => x +:+ ", " +:+ join_comma rest
  end.

Definition repr_list (l : list string) : string :=
  "[" +:+ join_comma (map repr_str l) +:+ "]".

(** *** [int(text)] on ASCII text

    Surrounding whitespace (tab, newline, vertical tab, form feed,
    carriage return, space) is stripped, one sign is allowed, and the
    digits may be grouped by single underscores.  A literal of more than
    640 digits is refused when it is longer than the limit the interpreter
    is configured with ([max_digits], 0 for no limit).  Anything else is a
    [ValueError].  What [int()] makes of a text with characters outside
    ASCII depends on the interpreter's Unicode tables and is not decided
    here. *)
Module PyInt.

Definition is_space (c : ascii) : bool :=
  let n := nat_of_ascii c in
  (Nat.leb 9 n && Nat.leb n 13) || Nat.eqb n 32.

Definition digit_of (c : ascii) : option Z :=
  let n := nat_of_ascii c in
  if Nat.leb 48 n && Nat.leb n 57 then Some (Z.of_nat (n - 48)) else None.

Fixpoint lstrip (l : list ascii) : list ascii :=
  match l with
  | c :: l' => if is_space c then lstrip l' else l
  | [] => []
  end.

Definition strip (l : list ascii) : list ascii :=
  rev (lstrip (rev (lstrip l))).

(** The value of a run of digits and the number of its digits.  [seen]
    tells whether the previous character was a digit: an underscore is
    only legal between two digits. *)
Fixpoint digits (acc : Z) (count : nat) (seen : bool) (l : list ascii)
  : option (Z * nat) :=
  match l with
  | [] => if seen then Some (acc, count) else None
  | c :: l' =>
      match digit_of c with
      | Some d => digits (10 * acc + d) (S count) true l'
      | None =>
          if Ascii.eqb c "_"%char && seen then digits acc count false l'
          else None
      end
  end.

Definition over_limit (max_digits count : nat) : bool :=
  Nat.ltb 640 count && Nat.ltb 0 max_digits && Nat.ltb max_digits count.

Definition magnitude (max_digits : nat) (l : list ascii) : option Z :=
  match digits 0 0 false l with
  | Some (n, count) => if over_limit max_digits count then None else Some n
  | None => None
  end.

Definition parse (max_digits : nat) (s : string) : option Z :=
  match strip (list_ascii_of_string s) with
  | c :: l' =>
      if Ascii.eqb c "-"%char then Z.opp <$> magnitude max_digits l'
      else if Ascii.eqb c "+"%char then magnitude max_digits l'
      else magnitude max_digits (c :: l')
  | [] => None
  end.

Definition is_ascii (s : string) : bool :=
  forallb (fun c => Nat.ltb (nat_of_ascii c) 128) (list_ascii_of_string s).

End PyInt.

(** ** The world outside the process *)

(** What the child process started by one [subprocess.run] call does. *)
Inductive child :=
| Exits (after : Z) (returncode : Z) (stdout stderr : string)
    (** runs for [after] seconds, then exits *)
| Hangs
    (** never exits on its own *)
| LaunchFails (code : errno) (msg : string)
    (** [Popen] raises an [OSError]: script missing, not executable, ... *)
| Interrupted
    (** SIGINT reaches the service while it waits for the child *)
| Garbled (after : Z) (returncode : Z) (msg : string).
    (** runs for [after] seconds, then exits, but what it wrote cannot be
        decoded as text: [subprocess.run] raises [UnicodeDecodeError] *)

(** What happens during one [time.sleep] call with a valid argument. *)
Inductive sleep_signal :=
| Quiet                   (** the sleep runs to its end *)
| Interrupt               (** SIGINT arrives: [KeyboardInterrupt] *)
| Fault (msg : string).   (** injected fault: the call raises an [Exception] *)

Record World := {
  environ : gmap string string;      (** [os.environ] *)
  runs    : nat -> child;            (** behaviour of the k-th child *)
  sleeps  : nat -> sleep_signal;     (** fate of the k-th sleep *)
  int_unicode : string -> option Z;
    (** [int(text)] for a text with characters outside ASCII *)
  int_max_str_digits : nat;
    (** [sys.get_int_max_str_digits()], 0 for no limit *)
  int_error : string -> string;
    (** the message of the [ValueError] that [int(text)] raises *)
}.

(** ** The state of the process and of what it can observe *)

Inductive level := INFO | WARNING | ERROR.

Inductive event :=
| Log (lvl : level) (msg : string)     (** one line handed to the logger *)
| Slept (secs : Z)                     (** a [time.sleep] that completed *)
| Run (argv : list string) (timeout : Z) (** a [subprocess.run] call *)
| Kill.                                (** the child was killed *)

Inductive node := Dir | File.

(** A path is its list of segments, innermost first: [/app/logs] is
    [["logs"; "app"]], its parent is the tail and the root is [[]]. *)
Record state := {
  now    : Z;                        (** seconds on the wall clock *)
  trace  : list event;               (** oldest event first *)
  fs     : gmap (list string) node;  (** the file system *)
  nsleep : nat;                      (** [time.sleep] calls so far *)
  nrun   : nat;                      (** [subprocess.run] calls so far *)
}.

Definition emit (e : event) (st : state) : state :=
  {| now := now st; trace := trace st ++ [e]; fs := fs st;
     nsleep := nsleep st; nrun := nrun st |}.

Definition advance (secs : Z) (st : state) : state :=
  {| now := now st + secs; trace := trace st; fs := fs st;
     nsleep := nsleep st; nrun := nrun st |}.

Definition next_sleep (st : state) : state :=
  {| now := now st; trace := trace st; fs := fs st;
     nsleep := S (nsleep st); nrun := nrun st |}.

Definition next_run (st : state) : state :=
  {| now := now st; trace := trace st; fs := fs st;
     nsleep := nsleep st; nrun := S (nrun st) |}.

Definition set_fs (f : gmap (list string) node) (st : state) : state :=
  {| now := now st; trace := trace st; fs := f;
     nsleep := nsleep st; nrun := nrun st |}.

(** ** State and exception monad *)

Inductive result (A : Type) :=
| Ret (a : A)
| Raise (e : exn).
Arguments Ret {A} a.
Arguments Raise {A} e.

Definition M (A : Type) : Type := state -> result A * state.

Definition ret {A} (a : A) : M A := fun st => (Ret a, st).

Definition raise {A} (e : exn) : M A := fun st => (Raise e, st).

Definition bind {A B} (m : M A) (k : A -> M B) : M B :=
  fun st =>
    match m st with
    | (Ret a, st') => k a st'
    | (Raise e, st') => (Raise e, st')
    end.

Notation "x <- m ;; k" := (bind m (fun x => k))
  (at level 100, m at next level, right associativity).
Notation "m ;; k" := (bind m (fun _ => k))
  (at level 100, right associativity).

(** [try: body except ...: handler]: the first matching clause is the one
    for which [handlers] answers; an exception without a clause goes on. *)
Definition try_except {A} (body : M A) (handlers : exn -> option (M A)) : M A :=
  fun st =>
    match body st with
    | (Ret a, st') => (Ret a, st')
    | (Raise e, st') =>
        match handlers e with
        | Some h => h st'
        | None => (Raise e, st')
        end
    end.

Definition log (lvl : level) (msg : string) : M unit :=
  fun st => (Ret tt, emit (Log lvl msg) st).

(** [sys.exit(code)] *)
Definition sys_exit {A} (code : Z) : M A := raise (SystemExit code).

(** ** File system: [Path.mkdir] *)

Module Fs.

(** [stat] of a path: the node it names, or why it cannot be reached. *)
Fixpoint resolve (f : gmap (list string) node) (p : list string)
  : node + errno :=
  match p with
  | [] => inl Dir
  | _ :: parent =>
      match resolve f parent with
      | inl Dir =>
          match f !! p with
          | Some n => inl n
          | None => inr ENOENT
          end
      | inl File => inr ENOTDIR
      | inr e => inr e
      end
  end.

Definition is_dir (f : gmap (list string) node) (p : list string) : bool :=
  match resolve f p with
  | inl Dir => true
  | _ => false
  end.

(** [os.mkdir(p)].  Every directory is taken to be writable: the
    failures for lack of permission, on a read-only file system or on a
    full disk are not modelled. *)
Definition os_mkdir (p : list string) : M unit :=
  fun st =>
    match p with
    | [] => (Raise (OSError EEXIST "File exists"), st)
    | _ :: parent =>
        match resolve (fs st) parent with
        | inl Dir =>
            match fs st !! p with
            | Some _ => (Raise (OSError EEXIST "File exists"), st)
            | None => (Ret tt, set_fs (<[p := Dir]> (fs st)) st)
            end
        | inl File => (Raise (OSError ENOTDIR "Not a directory"), st)
        | inr e => (Raise (OSError e "No such file or directory"), st)
        end
    end.

(** The [except OSError] clause of [Path.mkdir]. *)
Definition on_oserror (exist_ok : bool) (p : list string) (e : exn) : M unit :=
  fun st =>
    if negb exist_ok || negb (is_dir (fs st) p)
    then (Raise e, st) else (Ret tt, st).

(** [Path(p).mkdir(parents=False, exist_ok=exist_ok)] *)
Definition mkdir_one (exist_ok : bool) (p : list string) : M unit :=
  try_except (os_mkdir p)
    (fun e =>
       match e with
       | OSError ENOENT _ => None
       | OSError _ _ => Some (on_oserror exist_ok p e)
       | _ => None
       end).

(** [Path(p).mkdir(parents=parents, exist_ok=exist_ok)]: on
    [FileNotFoundError] the parent is created first, with
    [parents=True, exist_ok=True], and the directory itself is retried
    without [parents]. *)
Fixpoint mkdir (p : list string) (parents exist_ok : bool) : M unit :=
  try_except (os_mkdir p)
    (fun e =>
       match e with
       | OSError ENOENT _ =>
           match p with
           | [] => None
           | _ :: parent =>
               if negb parents then None
               else Some (mkdir parent true true ;; mkdir_one exist_ok p)
           end
       | OSError _ _ => Some (on_oserror exist_ok p e)
       | _ => None
       end).

End Fs.

(** ** The script *)

Inductive flow := Next | Break.

(** How far the service got: the loop of [main] never ends on its own, so
    it is unrolled [fuel] times; [Alive] means it is still looping after
    that many iterations, [Stopped] that it left the loop through
    [break]. *)
Inductive status := Alive | Stopped.

Record CompletedProcess := {
  returncode : Z;
  stdout : string;
  stderr : string;
}.

Definition required_vars : list string :=
  ["GOOGLE_CLOUD_PROJECT"; "GOOGLE_CLOUD_STORAGE_BUCKET"].

(** [/app/logs] *)
Definition log_dir : list string := ["logs"; "app"].

(** The longest sleep, in seconds, that [time.sleep] can count in
    nanoseconds on 64 bits. *)
Definition sleep_max : Z := 9223372036.

Section Service.

Variable w : World.

(** [os.getenv(var)] and [os.getenv(var, default)] *)
Definition getenv (var : string) : option string := environ w !! var.

Definition getenv_default (var default : string) : string :=
  match environ w !! var with
  | Some v => v
  | None => default
  end.

(** The integer [int(text)] returns, if it returns one: ASCII text is
    parsed here, any other text is left to the interpreter. *)
Definition int_value (text : string) : option Z :=
  if PyInt.is_ascii text
  then PyInt.parse (int_max_str_digits w) text
  else int_unicode w text.

(** [int(text)] *)
Definition py_int (text : string) : M Z :=
  match int_value text with
  | Some n => ret n
  | None => raise (ValueError (int_error w text))
  end.

(** [time.sleep(secs)]: a length that does not fit the interpreter's
    64-bit count of nanoseconds is an [OverflowError], a negative length a
    [ValueError], both raised before any waiting; otherwise the world
    decides whether the sleep completes. *)
Definition sleep_outcome (secs : Z) (sig : sleep_signal) : result unit :=
  if (sleep_max <? secs)%Z || (secs <? - sleep_max)%Z
  then Raise (OverflowError "timestamp too large to convert to C _PyTime_t")
  else if (secs <? 0)%Z
  then Raise (ValueError "sleep length must be non-negative")
  else
    match sig with
    | Quiet => Ret tt
    | Interrupt => Raise KeyboardInterrupt
    | Fault msg => Raise (PyException msg)
    end.

Definition time_sleep (secs : Z) : M unit :=
  fun st =>
    match sleep_outcome secs (sleeps w (nsleep st)) with
    | Ret _ => (Ret tt, emit (Slept secs) (advance secs (next_sleep st)))
    | Raise e => (Raise e, next_sleep st)
    end.

(** [subprocess.run(argv, capture_output=True, text=True,
    timeout=timeout)]: the child is waited for at most [timeout]
    seconds; when the time is up, or when the wait is interrupted, the
    child is killed before the exception goes on.  The output of a child
    that has exited is decoded as text, which can fail. *)
Definition subprocess_run (argv : list string) (timeout : Z)
  : M CompletedProcess :=
  fun st =>
    let st1 := emit (Run argv timeout) (next_run st) in
    match runs w (nrun st) with
    | Exits after rc out err =>
        if (after <=? timeout)%Z
        then (Ret {| returncode := rc; stdout := out; stderr := err |},
              advance after st1)
        else (Raise TimeoutExpired, emit Kill (advance timeout st1))
    | Hangs => (Raise TimeoutExpired, emit Kill (advance timeout st1))
    | LaunchFails code msg => (Raise (OSError code msg), st1)
    | Interrupted => (Raise KeyboardInterrupt, emit Kill st1)
    | Garbled after rc msg =>
        if (after <=? timeout)%Z
        then (Raise (ValueError msg), advance after st1)
        else (Raise TimeoutExpired, emit Kill (advance timeout st1))
    end.

(** [run_backup()].  The body of the [try] either returns [False]
    ([Some false]) or falls through ([None]) to the final
    [return True]. *)
Definition run_backup : M bool :=
  r <- try_except
         (log INFO "Starting scheduled backup...";;
          result <- subprocess_run ["/app/scripts/backup.sh"] 300;;
          if (returncode result =? 0)%Z then
            log INFO "Backup completed successfully";;
            log INFO ("Backup output: " +:+ stdout result);;
            ret None
          else
            log ERROR ("Backup failed with return code "
                         +:+ pretty (returncode result));;
            log ERROR ("Backup error: " +:+ stderr result);;
            ret (Some false))
         (fun e =>
            match e with
            | TimeoutExpired =>
                Some (log ERROR "Backup timed out after 5 minutes";;
                      ret (Some false))
            | _ =>
                if is_Exception e then
                  Some (log ERROR ("Unexpected error during backup: "
                                     +:+ exn_str e);;
                        ret (Some false))
                else None
            end);;
  match r with
  | Some b => ret b
  | None => ret true
  end.

(** One turn of [while True]. *)
Definition loop_iteration (backup_interval_hours backup_interval_seconds : Z)
  : M flow :=
  try_except
    (log INFO ("Sleeping for " +:+ pretty backup_interval_hours
                 +:+ " hours until next backup...");;
     time_sleep backup_interval_seconds;;
     success <- run_backup;;
     (if negb success
      then log WARNING "Backup failed, will retry at next interval"
      else ret tt);;
     ret Next)
    (fun e =>
       match e with
       | KeyboardInterrupt =>
           Some (log INFO "Backup service stopped by user";; ret Break)
       | _ =>
           if is_Exception e then
             Some (log ERROR ("Unexpected error in backup service: "
                                +:+ exn_str e);;
                   time_sleep 60;;
                   ret Next)
           else None
       end).

Fixpoint main_loop (fuel : nat)
  (backup_interval_hours backup_interval_seconds : Z) : M status :=
  match fuel with
  | O => ret Alive
  | S fuel' =>
      f <- loop_iteration backup_interval_hours backup_interval_seconds;;
      match f with
      | Break => ret Stopped
      | Next => main_loop fuel' backup_interval_hours backup_interval_seconds
      end
  end.

Definition missing_vars : list string :=
  List.filter (fun var => negb (truthy (getenv var))) required_vars.

(** The text [int()] is applied to, and what it parses to. *)
Definition interval_hours : option Z :=
  int_value (getenv_default "BACKUP_INTERVAL_HOURS" "24").

(** [main()], with its loop unrolled [fuel] times. *)
Definition main (fuel : nat) : M status :=
  log INFO "Starting Auto-Apply backup service...";;
  (match missing_vars with
   | _ :: _ =>
       log ERROR ("Missing required environment variables: "
                    +:+ repr_list missing_vars);;
       sys_exit 1
   | [] => ret tt
   end);;
  Fs.mkdir log_dir true true;;
  backup_interval_hours <- py_int (getenv_default "BACKUP_INTERVAL_HOURS" "24");;
  let backup_interval_seconds := (backup_interval_hours * 3600)%Z in
  log INFO ("Backup service configured with " +:+ pretty backup_interval_hours
              +:+ " hour interval");;
  log INFO "Running initial backup...";;
  _ <- run_backup;;
  main_loop fuel backup_interval_hours backup_interval_seconds.

(** The part of [main] before the initial backup: it yields
    [backup_interval_hours]. *)
Definition startup : M Z :=
  log INFO "Starting Auto-Apply backup service...";;
  (match missing_vars with
   | _ :: _ =>
       log ERROR ("Missing required environment variables: "
                    +:+ repr_list missing_vars);;
       sys_exit 1
   | [] => ret tt
   end);;
  Fs.mkdir log_dir true true;;
  backup_interval_hours <- py_int (getenv_default "BACKUP_INTERVAL_HOURS" "24");;
  log INFO ("Backup service configured with " +:+ pretty backup_interval_hours
              +:+ " hour interval");;
  ret backup_interval_hours.

(** The rest of [main]: the initial backup, then the loop. *)
Definition serve (fuel : nat) (backup_interval_hours : Z) : M status :=
  log INFO "Running initial backup...";;
  _ <- run_backup;;
  main_loop fuel backup_interval_hours (backup_interval_hours * 3600)%Z.

End Service.

(** ** The process as seen from outside *)

(** A fresh process on file system [f]. *)
Definition boot (f : gmap (list string) node) : state :=
  {| now := 0; trace := []; fs := f; nsleep := 0; nrun := 0 |}.

(** How the interpreter ends when [main()] ends: a normal return is exit
    code 0, [SystemExit] carries its code, an unhandled [Exception] prints
    a traceback and exits with 1, and an unhandled [KeyboardInterrupt]
    makes the interpreter die of SIGINT. *)
Inductive fate :=
| StillRunning
| ExitCode (code : Z)
| KilledBySigint.

Definition fate_of (r : result status) : fate :=
  match r with
  | Ret Alive => StillRunning
  | Ret Stopped => ExitCode 0
  | Raise (SystemExit code) => ExitCode code
  | Raise KeyboardInterrupt => KilledBySigint
  | Raise _ => ExitCode 1
  end.

(** ** Observations on traces *)

Definition is_run (e : event) : bool :=
  match e with
  | Run _ _ => true
  | _ => false
  end.

(** Number of backup attempts, one per [subprocess.run] call. *)
Definition attempts (tr : list event) : nat :=
  length (List.filter is_run tr).

(** The timing skeleton of a trace: the attempts and the completed sleeps,
    in order, without the log lines. *)
Inductive tick := Attempt | Wait (secs : Z).

Fixpoint schedule (tr : list event) : list tick :=
  match tr with
  | [] => []
  | Run _ _ :: tr' => Attempt :: schedule tr'
  | Slept secs :: tr' => Wait secs :: schedule tr'
  | _ :: tr' => schedule tr'
  end.

Definition logged (lvl : level) (msg : string) (tr : list event) : Prop :=
  In (Log lvl msg) tr.

Definition shutdown_message : string := "Backup service stopped by user".

(** [evolve st evs dt dr ds] is [st] after the events [evs], [dt] seconds,
    [dr] calls of [subprocess.run] and [ds] calls of [time.sleep]. *)
Definition evolve (st : state) (evs : list event) (dt : Z) (dr ds : nat)
  : state :=
  {| now := now st + dt; trace := trace st ++ evs; fs := fs st;
     nsleep := nsleep st + ds; nrun := nrun st + dr |}.

(** What one call of [run_backup] does, read off the behaviour of its
    child: the events it leaves ... *)
Definition attempt_events (c : child) : list event :=
  Log INFO "Starting scheduled backup..."
  :: Run ["/app/scripts/backup.sh"] 300
  :: match c with
     | Exits after rc out err =>
         if (after <=? 300)%Z then
           if (rc =? 0)%Z then
             [Log INFO "Backup completed successfully";
              Log INFO ("Backup output: " +:+ out)]
           else
             [Log ERROR ("Backup failed with return code " +:+ pretty rc);
              Log ERROR ("Backup error: " +:+ err)]
         else [Kill; Log ERROR "Backup timed out after 5 minutes"]
     | Hangs => [Kill; Log ERROR "Backup timed out after 5 minutes"]
     | LaunchFails _ msg =>
         [Log ERROR ("Unexpected error during backup: " +:+ msg)]
     | Interrupted => [Kill]
     | Garbled after _ msg =>
         if (after <=? 300)%Z
         then [Log ERROR ("Unexpected error during backup: " +:+ msg)]
         else [Kill; Log ERROR "Backup timed out after 5 minutes"]
     end.

(** ... the time it takes ... *)
Definition attempt_time (c : child) : Z :=
  match c with
  | Exits after _ _ _ => if (after <=? 300)%Z then after else 300
  | Hangs => 300
  | LaunchFails _ _ => 0
  | Interrupted => 0
  | Garbled after _ _ => if (after <=? 300)%Z then after else 300
  end.

(** ... and what it hands to its caller. *)
Definition attempt_result (c : child) : result bool :=
  match c with
  | Exits after rc _ _ => Ret ((after <=? 300)%Z && (rc =? 0)%Z)
  | Hangs => Ret false
  | LaunchFails _ _ => Ret false
  | Interrupted => Raise KeyboardInterrupt
  | Garbled _ _ _ => Ret false
  end.



(** The child is still running when [timeout] seconds have passed. *)
Definition overruns (timeout : Z) (c : child) : Prop :=
  match c with
  | Exits after _ _ _ | Garbled after _ _ => timeout < after
  | Hangs => True
  | _ => False
  end.

(** [st'] differs from [st] in its file system at most. *)
Definition same_but_fs (st st' : state) : Prop :=
  st' = set_fs (fs st') st.

(** The line logged at the end of startup. *)
Definition configured_message (hours : Z) : string :=
  "Backup service configured with " +:+ pretty hours +:+ " hour interval".

(** The log lines of a turn of the loop. *)
Definition sleeping_message (hours : Z) : string :=
  "Sleeping for " +:+ pretty hours +:+ " hours until next backup...".

Definition retry_warning : list event :=
  [Log WARNING "Backup failed, will retry at next interval"].

Definition crash_message (e : exn) : string :=
  "Unexpected error in backup service: " +:+ exn_str e.

(** A [time.sleep(secs)] call that raises an [Exception]. *)
Definition faulty (secs : Z) (sig : sleep_signal) : Prop :=
  exists e : exn, sleep_outcome secs sig = Raise e /\ is_Exception e = true.

Definition raised_message (r : result unit) : string :=
  match r with
  | Raise e => crash_message e
  | Ret _ => EmptyString
  end.

(** The events of [n] turns in a row whose sleep faults, the first of them
    making the [k]-th call of [time.sleep]: each turn announces the sleep,
    logs the fault and sleeps one minute. *)
Fixpoint crash_turns (w : World) (hours secs : Z) (k n : nat) : list event :=
  match n with
  | O => []
  | S n' =>
      [Log INFO (sleeping_message hours);
       Log ERROR (raised_message (sleep_outcome secs (sleeps w k)));
       Slept 60]
        ++ crash_turns w hours secs (S (S k)) n'
  end.

(** A timing skeleton in which no attempt starts unless the tick right
    before it is a sleep of exactly [secs] seconds; [rested] tells whether
    such a sleep has just ended. *)
Fixpoint paced (secs : Z) (rested : bool) (l : list tick) : bool :=
  match l with
  | [] => true
  | Attempt :: l' => rested && paced secs false l'
  | Wait s :: l' => paced secs (s =? secs)%Z l'
  end.

(** Seconds spent in the [n] attempts that start with the [k]-th child. *)
Fixpoint attempts_time (w : World) (k n : nat) : Z :=
  match n with
  | O => 0
  | S n' => attempt_time (runs w k) + attempts_time w (S k) n'
  end.

(** ** The module body

    Before [main] is called, loading the module configures the logger:
    [logging.FileHandler('/app/logs/backup_service.log')] opens its file
    for appending at once, which creates the file but none of the
    directories above it. *)

(** [/app/logs/backup_service.log] *)
Definition log_file : list string := ["backup_service.log"; "logs"; "app"].

(** Why the file cannot be opened: [FileNotFoundError],
    [NotADirectoryError], [IsADirectoryError]. *)
Inductive open_error := NoSuchDirectory | ParentNotDirectory | IsDirectory.

(** [open(p, 'a')] *)
Definition open_append (p : list string) (f : gmap (list string) node)
  : gmap (list string) node + open_error :=
  match p with
  | [] => inr IsDirectory
  | _ :: parent =>
      match Fs.resolve f parent with
      | inl Dir =>
          match f !! p with
          | Some Dir => inr IsDirectory
          | Some File => inl f
          | None => inl (<[p := File]> f)
          end
      | inl File => inr ParentNotDirectory
      | inr ENOTDIR => inr ParentNotDirectory
      | inr _ => inr NoSuchDirectory
      end
  end.

(** How a run of the script ends: with an exception while the module body
    is executed, or with what [main()] did. *)
Inductive script_end :=
| ImportFailed (e : open_error)
| Main (r : result status).

(** The script run as a program on file system [f]: the module body, then
    [main()]. *)
Definition script (w : World) (fuel : nat) (f : gmap (list string) node)
  : script_end * state :=
  match open_append log_file f with
  | inr e => (ImportFailed e, boot f)
  | inl f' =>
      let (r, st) := main w fuel (boot f') in (Main r, st)
  end.

(** An exception in the module body is a traceback and exit code 1. *)
Definition script_fate (e : script_end) : fate :=
  match e with
  | ImportFailed _ => ExitCode 1
  | Main r => fate_of r
  end.

(** ** Sample worlds *)

(** The usual wording of the [ValueError] of [int()]. *)
Definition invalid_literal (text : string) : string :=
  "invalid literal for int() with base 10: " +:+ repr_str text.

Definition env_ok : gmap string string :=
  <["GOOGLE_CLOUD_PROJECT" := "proj"]>
    (<["GOOGLE_CLOUD_STORAGE_BUCKET" := "bucket"]> ∅).

Definition fs_ok : gmap (list string) node :=
  <[["logs"; "app"] := Dir]> (<[["app"] := Dir]> ∅).

Definition calm : World :=
  {| environ := env_ok;
     runs := fun _ => Exits 12 0 "done" EmptyString;
     sleeps := fun _ => Quiet;
     int_unicode := fun _ => None;
     int_max_str_digits := 4300;
     int_error := invalid_literal |}.

(** [/app] is a regular file. *)
Definition fs_blocked : gmap (list string) node :=
  <[["app"] := File]> ∅.

(** The bucket is not configured. *)
Definition no_bucket : World :=
  {| environ := <["GOOGLE_CLOUD_PROJECT" := "proj"]> ∅;
     runs := fun _ => Exits 12 0 "done" EmptyString;
     sleeps := fun _ => Quiet;
     int_unicode := fun _ => None;
     int_max_str_digits := 4300;
     int_error := invalid_literal |}.

(** The project is configured as the empty string. *)
Definition empty_project : World :=
  {| environ := <["GOOGLE_CLOUD_PROJECT" := EmptyString]> env_ok;
     runs := fun _ => Exits 12 0 "done" EmptyString;
     sleeps := fun _ => Quiet;
     int_unicode := fun _ => None;
     int_max_str_digits := 4300;
     int_error := invalid_literal |}.

(** SIGINT arrives during every attempt. *)
Definition interrupted_attempts : World :=
  {| environ := env_ok;
     runs := fun _ => Interrupted;
     sleeps := fun _ => Quiet;
     int_unicode := fun _ => None;
     int_max_str_digits := 4300;
     int_error := invalid_literal |}.

(** The backup script never returns. *)
Definition stuck : World :=
  {| environ := env_ok;
     runs := fun _ => Hangs;
     sleeps := fun _ => Quiet;
     int_unicode := fun _ => None;
     int_max_str_digits := 4300;
     int_error := invalid_literal |}.

(** Attempts succeed, fail, time out and fail to launch in turn. *)
Definition mixed : World :=
  {| environ := <["BACKUP_INTERVAL_HOURS" := "1"]> env_ok;
     runs := fun k =>
       match k with
       | O => Exits 12 0 "done" EmptyString
       | 1%nat => Exits 3 2 EmptyString "disk full"
       | 2%nat => Hangs
       | _ => LaunchFails ENOENT "No such file or directory"
       end;
     sleeps := fun _ => Quiet;
     int_unicode := fun _ => None;
     int_max_str_digits := 4300;
     int_error := invalid_literal |}.


Definition negative_interval : World :=
  {| environ := <["BACKUP_INTERVAL_HOURS" := "-1"]> env_ok;
     runs := fun _ => Exits 12 0 "done" EmptyString;
     sleeps := fun _ => Quiet;
     int_unicode := fun _ => None;
     int_max_str_digits := 4300;
     int_error := invalid_literal |}.


(** Every sleep of the loop faults; the sleeps of the handler complete. *)
Definition flaky_sleep : World :=
  {| environ := env_ok;
     runs := fun _ => Exits 12 0 "done" EmptyString;
     sleeps := fun k => if Nat.even k then Fault "clock jumped" else Quiet;
     int_unicode := fun _ => None;
     int_max_str_digits := 4300;
     int_error := invalid_literal |}.

(** The first sleep faults and SIGINT arrives during the next one. *)
Definition interrupted_backoff : World :=
  {| environ := env_ok;
     runs := fun _ => Exits 12 0 "done" EmptyString;
     sleeps := fun k =>
       match k with
       | O => Fault "clock jumped"
       | _ => Interrupt
       end;
     int_unicode := fun _ => None;
     int_max_str_digits := 4300;
     int_error := invalid_literal |}.

(** Every sleep faults, the one of the handler too. *)
Definition all_faults : World :=
  {| environ := env_ok;
     runs := fun _ => Exits 12 0 "done" EmptyString;
     sleeps := fun _ => Fault "clock jumped";
     int_unicode := fun _ => None;
     int_max_str_digits := 4300;
     int_error := invalid_literal |}.

(** The interval is negative, so that every sleep of the loop is refused,
    and SIGINT arrives during the first one-minute sleep of the
    handler. *)
Definition negative_interrupted : World :=
  {| environ := <["BACKUP_INTERVAL_HOURS" := "-1"]> env_ok;
     runs := fun _ => Exits 12 0 "done" EmptyString;
     sleeps := fun k => if Nat.eqb k 1 then Interrupt else Quiet;
     int_unicode := fun _ => None;
     int_max_str_digits := 4300;
     int_error := invalid_literal |}.

(** The interval is too long for [time.sleep]. *)
Definition huge_interval : World :=
  {| environ := <["BACKUP_INTERVAL_HOURS" := "3000000"]> env_ok;
     runs := fun _ => Exits 12 0 "done" EmptyString;
     sleeps := fun _ => Quiet;
     int_unicode := fun _ => None;
     int_max_str_digits := 4300;
     int_error := invalid_literal |}.


(** SIGINT arrives during the third sleep. *)
Definition stopped_asleep : World :=
  {| environ := env_ok;
     runs := fun _ => Exits 12 0 "done" EmptyString;
     sleeps := fun k => if Nat.eqb k 2 then Interrupt else Quiet;
     int_unicode := fun _ => None;
     int_max_str_digits := 4300;
     int_error := invalid_literal |}.

(** ** Basic facts *)

Ltac run_monad :=
  unfold bind, ret, raise, log, sys_exit, try_except; simpl.

Lemma attempts_app (tr1 tr2 : list event) :
  attempts (tr1 ++ tr2) = (attempts tr1 + attempts tr2)%nat.
Proof.
  unfold attempts. rewrite List.filter_app, length_app. reflexivity.
Qed.

Lemma schedule_app (tr1 tr2 : list event) :
  schedule (tr1 ++ tr2) = schedule tr1 ++ schedule tr2.
Proof.
  induction tr1 as [|e tr1 IH]; simpl; [reflexivity|].
  destruct e; simpl; rewrite ?IH; reflexivity.
Qed.

Lemma attempts_schedule (tr : list event) :
  attempts tr = length (List.filter (fun t => match t with Attempt => true | _ => false end)
                          (schedule tr)).
Proof.
  unfold attempts. induction tr as [|e tr IH]; simpl; [reflexivity|].
  destruct e; simpl; rewrite ?IH; reflexivity.
Qed.

(** [main] is [startup] followed by [serve]. *)
Lemma main_startup (w : World) (fuel : nat) (st : state) :
  main w fuel st =
  match startup w st with
  | (Ret h, st1) => serve w fuel h st1
  | (Raise e, st1) => (Raise e, st1)
  end.
Proof.
  unfold main, startup, serve, bind, ret.
  generalize (Fs.mkdir log_dir true true); intros mk.
  destruct (log INFO "Starting Auto-Apply backup service..." st) as [[[]|e0] s0];
    [|reflexivity].
  destruct (missing_vars w) as [|v l]; [|reflexivity].
  destruct (mk s0) as [[[]|e1] s1]; [|reflexivity].
  destruct (py_int w (getenv_default w "BACKUP_INTERVAL_HOURS" "24") s1)
    as [[h|e2] s2]; reflexivity.
Qed.

(** ** Startup: the required environment variables *)

Lemma falsy_is_missing (w : World) (var : string) :
  In var required_vars -> truthy (getenv w var) = false ->
  In var (missing_vars w).
Proof.
  intros Hin Hf. unfold missing_vars. apply List.filter_In.
  split; [exact Hin | rewrite Hf; reflexivity].
Qed.

(** With a required variable missing, [startup] logs the list and raises
    [SystemExit(1)]; nothing else happens. *)
Lemma startup_refuses (w : World) (st : state) :
  missing_vars w <> [] ->
  startup w st =
  (Raise (SystemExit 1),
   emit (Log ERROR ("Missing required environment variables: "
                      +:+ repr_list (missing_vars w)))
     (emit (Log INFO "Starting Auto-Apply backup service...") st)).
Proof.
  intros Hne. unfold startup.
  destruct (missing_vars w) as [|v l]; [congruence|].
  reflexivity.
Qed.

Lemma main_refuses (w : World) (fuel : nat) (st : state) :
  missing_vars w <> [] ->
  main w fuel st =
  (Raise (SystemExit 1),
   emit (Log ERROR ("Missing required environment variables: "
                      +:+ repr_list (missing_vars w)))
     (emit (Log INFO "Starting Auto-Apply backup service...") st)).
Proof.
  intros Hne. rewrite main_startup, startup_refuses by exact Hne. reflexivity.
Qed.

(** What an observer sees of a process that refused to start: exit code 1,
    two log lines, no attempt. *)
Lemma refusal_observed (w : World) (fuel : nat) (f : gmap (list string) node) :
  missing_vars w <> [] ->
  fate_of (fst (main w fuel (boot f))) = ExitCode 1
  /\ trace (snd (main w fuel (boot f))) =
       [Log INFO "Starting Auto-Apply backup service...";
        Log ERROR ("Missing required environment variables: "
                     +:+ repr_list (missing_vars w))]
  /\ attempts (trace (snd (main w fuel (boot f)))) = 0%nat
  /\ nrun (snd (main w fuel (boot f))) = 0%nat.
Proof.
  intros Hne. rewrite main_refuses by exact Hne. simpl.
  repeat split; reflexivity.
Qed.

(** C1. If GOOGLE_CLOUD_PROJECT or GOOGLE_CLOUD_STORAGE_BUCKET is missing
    from the environment, the process ends with exit code 1, whatever the
    number of loop turns it would have been given, after logging the
    missing names, and no backup attempt is made: [subprocess.run] is never
    called. *)
Theorem missing_required_variable_exits_1
  (w : World) (fuel : nat) (f : gmap (list string) node) :
  getenv w "GOOGLE_CLOUD_PROJECT" = None
  \/ getenv w "GOOGLE_CLOUD_STORAGE_BUCKET" = None ->
  fate_of (fst (main w fuel (boot f))) = ExitCode 1
  /\ trace (snd (main w fuel (boot f))) =
       [Log INFO "Starting Auto-Apply backup service...";
        Log ERROR ("Missing required environment variables: "
                     +:+ repr_list (missing_vars w))]
  /\ attempts (trace (snd (main w fuel (boot f)))) = 0%nat
  /\ nrun (snd (main w fuel (boot f))) = 0%nat.
Proof.
  intros H. apply refusal_observed.
  assert (Hin : exists var, In var (missing_vars w)).
  { destruct H as [H|H]; eexists; apply falsy_is_missing;
      try (rewrite H; reflexivity); simpl; tauto. }
  destruct Hin as [var Hin]. intros Heq. rewrite Heq in Hin. destruct Hin.
Qed.

(** C9. A required variable set to the empty string counts as missing:
    the check is on the truthiness of [os.getenv(var)], so the process
    ends with exit code 1 and no attempt here too. *)
Theorem empty_required_variable_exits_1
  (w : World) (fuel : nat) (f : gmap (list string) node) :
  getenv w "GOOGLE_CLOUD_PROJECT" = Some EmptyString
  \/ getenv w "GOOGLE_CLOUD_STORAGE_BUCKET" = Some EmptyString ->
  fate_of (fst (main w fuel (boot f))) = ExitCode 1
  /\ trace (snd (main w fuel (boot f))) =
       [Log INFO "Starting Auto-Apply backup service...";
        Log ERROR ("Missing required environment variables: "
                     +:+ repr_list (missing_vars w))]
  /\ attempts (trace (snd (main w fuel (boot f)))) = 0%nat
  /\ nrun (snd (main w fuel (boot f))) = 0%nat.
Proof.
  intros H. apply refusal_observed.
  assert (Hin : exists var, In var (missing_vars w)).
  { destruct H as [H|H]; eexists; apply falsy_is_missing;
      try (rewrite H; reflexivity); simpl; tauto. }
  destruct Hin as [var Hin]. intros Heq. rewrite Heq in Hin. destruct Hin.
Qed.

(** ** One attempt: [run_backup] *)

Lemma evolve_evolve (st : state) evs1 dt1 dr1 ds1 evs2 dt2 dr2 ds2 :
  evolve (evolve st evs1 dt1 dr1 ds1) evs2 dt2 dr2 ds2 =
  evolve st (evs1 ++ evs2) (dt1 + dt2) (dr1 + dr2) (ds1 + ds2).
Proof.
  unfold evolve; simpl. f_equal; try lia. rewrite <- app_assoc. reflexivity.
Qed.

Lemma evolve_nothing (st : state) : evolve st [] 0 0 0 = st.
Proof.
  destruct st; unfold evolve; simpl. f_equal; try lia. apply app_nil_r.
Qed.

Lemma trace_evolve (st : state) evs dt dr ds :
  trace (evolve st evs dt dr ds) = trace st ++ evs.
Proof. reflexivity. Qed.

Lemma nsleep_evolve (st : state) evs dt dr ds :
  nsleep (evolve st evs dt dr ds) = (nsleep st + ds)%nat.
Proof. reflexivity. Qed.

Lemma nrun_evolve (st : state) evs dt dr ds :
  nrun (evolve st evs dt dr ds) = (nrun st + dr)%nat.
Proof. reflexivity. Qed.

Ltac state_eq :=
  unfold evolve, emit, advance, next_run, next_sleep, set_fs; simpl;
  f_equal; try lia; rewrite <- ?app_assoc; try reflexivity.

(** [run_backup] in one equation. *)
Lemma run_backup_spec (w : World) (st : state) :
  run_backup w st =
  (attempt_result (runs w (nrun st)),
   evolve st (attempt_events (runs w (nrun st)))
     (attempt_time (runs w (nrun st))) 1 0).
Proof.
  unfold run_backup, subprocess_run, attempt_result, attempt_events,
    attempt_time.
  run_monad.
  destruct (runs w (nrun st)) as [after rc out err| |code msg| |after rc msg];
    simpl.
  - destruct (after <=? 300)%Z; simpl.
    + destruct (rc =? 0)%Z; simpl; f_equal; state_eq.
    + f_equal; state_eq.
  - f_equal; state_eq.
  - f_equal; state_eq.
  - f_equal; state_eq.
  - destruct (after <=? 300)%Z; simpl; f_equal; state_eq.
Qed.

(** ** One turn of the loop *)

Ltac open_turn :=
  unfold loop_iteration, try_except, bind, log, ret, time_sleep; simpl.

(** The sleep completes and the attempt returns: the turn ends normally,
    with a warning when the attempt failed. *)
Lemma turn_attempt (w : World) (h secs : Z) (st : state) (b : bool) :
  sleep_outcome secs (sleeps w (nsleep st)) = Ret tt ->
  attempt_result (runs w (nrun st)) = Ret b ->
  loop_iteration w h secs st =
  (Ret Next,
   evolve st
     ([Log INFO (sleeping_message h); Slept secs]
        ++ attempt_events (runs w (nrun st))
        ++ (if b then [] else retry_warning))
     (secs + attempt_time (runs w (nrun st))) 1 1).
Proof.
  intros Hs Hr. open_turn. rewrite Hs, run_backup_spec. simpl.
  rewrite Hr. destruct b; simpl; f_equal; state_eq.
  rewrite app_nil_r. reflexivity.
Qed.

(** SIGINT during the sleep of the loop. *)
Lemma turn_interrupted_asleep (w : World) (h secs : Z) (st : state) :
  sleep_outcome secs (sleeps w (nsleep st)) = Raise KeyboardInterrupt ->
  loop_iteration w h secs st =
  (Ret Break,
   evolve st [Log INFO (sleeping_message h); Log INFO shutdown_message] 0 0 1).
Proof.
  intros Hs. open_turn. rewrite Hs. f_equal; state_eq.
Qed.

(** SIGINT during the attempt of the loop. *)
Lemma turn_interrupted_attempt (w : World) (h secs : Z) (st : state) :
  sleep_outcome secs (sleeps w (nsleep st)) = Ret tt ->
  runs w (nrun st) = Interrupted ->
  loop_iteration w h secs st =
  (Ret Break,
   evolve st
     ([Log INFO (sleeping_message h); Slept secs]
        ++ attempt_events Interrupted ++ [Log INFO shutdown_message])
     secs 1 1).
Proof.
  intros Hs Hr. open_turn. rewrite Hs, run_backup_spec. simpl.
  rewrite Hr. simpl. f_equal; state_eq.
Qed.

(** The sleep of the loop raises an [Exception] and the one-minute sleep
    of the handler completes. *)
Lemma turn_fault (w : World) (h secs : Z) (st : state) (e : exn) :
  sleep_outcome secs (sleeps w (nsleep st)) = Raise e ->
  is_Exception e = true ->
  sleeps w (S (nsleep st)) = Quiet ->
  loop_iteration w h secs st =
  (Ret Next,
   evolve st
     [Log INFO (sleeping_message h); Log ERROR (crash_message e); Slept 60]
     60 0 2).
Proof.
  intros Hs He Hq. open_turn. rewrite Hs.
  destruct e; try discriminate He; simpl; unfold sleep_outcome; simpl;
    rewrite Hq; f_equal; state_eq.
Qed.

(** The handler itself is not protected: SIGINT during its one-minute
    sleep leaves the loop as an unhandled [KeyboardInterrupt]. *)
Lemma turn_fault_interrupted (w : World) (h secs : Z) (st : state) (e : exn) :
  sleep_outcome secs (sleeps w (nsleep st)) = Raise e ->
  is_Exception e = true ->
  sleeps w (S (nsleep st)) = Interrupt ->
  fst (loop_iteration w h secs st) = Raise KeyboardInterrupt.
Proof.
  intros Hs He Hq. open_turn. rewrite Hs.
  destruct e; try discriminate He; simpl; unfold sleep_outcome; simpl;
    rewrite Hq; reflexivity.
Qed.

(** The sleep of the loop raises an [Exception]: what the turn becomes is
    decided by the one-minute sleep of the handler. *)
Lemma turn_fault_general (w : World) (h secs : Z) (st : state) (e : exn) :
  sleep_outcome secs (sleeps w (nsleep st)) = Raise e ->
  is_Exception e = true ->
  loop_iteration w h secs st =
  match sleeps w (S (nsleep st)) with
  | Quiet =>
      (Ret Next,
       evolve st [Log INFO (sleeping_message h); Log ERROR (crash_message e);
                  Slept 60] 60 0 2)
  | Interrupt =>
      (Raise KeyboardInterrupt,
       evolve st [Log INFO (sleeping_message h); Log ERROR (crash_message e)]
         0 0 2)
  | Fault m =>
      (Raise (PyException m),
       evolve st [Log INFO (sleeping_message h); Log ERROR (crash_message e)]
         0 0 2)
  end.
Proof.
  intros Hs He. open_turn. rewrite Hs.
  destruct e; try discriminate He; simpl; unfold sleep_outcome; simpl;
    destruct (sleeps w (S (nsleep st))); f_equal; state_eq.
Qed.

(** ** The log directory: [Path('/app/logs').mkdir(parents=True, exist_ok=True)] *)

Lemma same_but_fs_refl (st : state) : same_but_fs st st.
Proof. destruct st; reflexivity. Qed.

Lemma same_but_fs_trans (st1 st2 st3 : state) :
  same_but_fs st1 st2 -> same_but_fs st2 st3 -> same_but_fs st1 st3.
Proof.
  unfold same_but_fs. intros H12 H23. rewrite H23 at 1. rewrite H12 at 1.
  reflexivity.
Qed.

Lemma os_mkdir_frame (p : list string) (st st' : state) (r : result unit) :
  Fs.os_mkdir p st = (r, st') -> same_but_fs st st'.
Proof.
  unfold Fs.os_mkdir. intros H.
  destruct p as [|x parent].
  - inversion H; subst. apply same_but_fs_refl.
  - destruct (Fs.resolve (fs st) parent) as [[|]|e].
    + destruct (fs st !! (x :: parent)); inversion H; subst;
        [apply same_but_fs_refl | reflexivity].
    + inversion H; subst. apply same_but_fs_refl.
    + inversion H; subst. apply same_but_fs_refl.
Qed.

Lemma on_oserror_frame (ok : bool) (p : list string) (e : exn)
  (st st' : state) (r : result unit) :
  Fs.on_oserror ok p e st = (r, st') -> st' = st.
Proof.
  unfold Fs.on_oserror. destruct (negb ok || negb (Fs.is_dir (fs st) p));
    intros H; inversion H; reflexivity.
Qed.

Lemma mkdir_one_frame (ok : bool) (p : list string) (st st' : state)
  (r : result unit) :
  Fs.mkdir_one ok p st = (r, st') -> same_but_fs st st'.
Proof.
  unfold Fs.mkdir_one, try_except. intros H.
  destruct (Fs.os_mkdir p st) as [[[]|e] s1] eqn:Hos.
  - inversion H; subst. eapply os_mkdir_frame; eassumption.
  - apply os_mkdir_frame in Hos.
    destruct e as [|m|c m|m|m| |c]; try (inversion H; subst; exact Hos).
    destruct c; try (apply on_oserror_frame in H; subst; exact Hos).
    inversion H; subst; exact Hos.
Qed.

Lemma mkdir_frame (p : list string) :
  forall (parents ok : bool) (st st' : state) (r : result unit),
    Fs.mkdir p parents ok st = (r, st') -> same_but_fs st st'.
Proof.
  induction p as [|x parent IH]; intros parents ok st st' r H;
    simpl in H; unfold try_except in H.
  - destruct (Fs.os_mkdir [] st) as [[[]|e] s1] eqn:Hos;
      apply os_mkdir_frame in Hos.
    + inversion H; subst; exact Hos.
    + destruct e as [|m|c m|m|m| |c]; try (inversion H; subst; exact Hos).
      destruct c; try (apply on_oserror_frame in H; subst; exact Hos).
      inversion H; subst; exact Hos.
  - destruct (Fs.os_mkdir (x :: parent) st) as [[[]|e] s1] eqn:Hos;
      apply os_mkdir_frame in Hos.
    + inversion H; subst; exact Hos.
    + destruct e as [|m|c m|m|m| |c]; try (inversion H; subst; exact Hos).
      destruct c; try (apply on_oserror_frame in H; subst; exact Hos).
      destruct parents; simpl in H; [|inversion H; subst; exact Hos].
      unfold bind in H.
      destruct (Fs.mkdir parent true true s1) as [[[]|e1] s2] eqn:Hpar;
        apply IH in Hpar.
      * apply mkdir_one_frame in H.
        eapply same_but_fs_trans; [exact Hos|].
        eapply same_but_fs_trans; eassumption.
      * inversion H; subst. eapply same_but_fs_trans; eassumption.
Qed.

(** Creating a directory does not change what shorter paths resolve to. *)
Lemma resolve_insert_deeper (f : gmap (list string) node)
  (p : list string) (n : node) :
  forall q : list string,
    (length q < length p)%nat ->
    Fs.resolve (<[p := n]> f) q = Fs.resolve f q.
Proof.
  induction q as [|x q IH]; intros Hlen; simpl; [reflexivity|].
  simpl in Hlen. rewrite IH by lia.
  rewrite lookup_insert_ne; [reflexivity|].
  intros Heq. subst p. simpl in Hlen. lia.
Qed.

Lemma is_dir_inv (f : gmap (list string) node) (x : string)
  (parent : list string) :
  Fs.is_dir f (x :: parent) = true ->
  Fs.resolve f parent = inl Dir /\ f !! (x :: parent) = Some Dir.
Proof.
  unfold Fs.is_dir; simpl.
  destruct (Fs.resolve f parent) as [[|]|e]; try discriminate.
  destruct (f !! (x :: parent)) as [[|]|]; try discriminate.
  intros _; split; reflexivity.
Qed.

(** On an existing directory the call changes nothing and raises
    nothing. *)
Lemma mkdir_existing (p : list string) (parents : bool) (st : state) :
  Fs.is_dir (fs st) p = true ->
  Fs.mkdir p parents true st = (Ret tt, st).
Proof.
  intros Hd. destruct p as [|x parent]; simpl; unfold try_except; simpl.
  - unfold Fs.on_oserror. simpl. reflexivity.
  - destruct (is_dir_inv _ _ _ Hd) as [Hpar Hp]. rewrite Hpar, Hp.
    unfold Fs.on_oserror. rewrite Hd. reflexivity.
Qed.

Lemma mkdir_one_makes_dir (p : list string) (st st' : state) :
  Fs.mkdir_one true p st = (Ret tt, st') -> Fs.is_dir (fs st') p = true.
Proof.
  unfold Fs.mkdir_one, try_except, Fs.os_mkdir, Fs.on_oserror. intros H.
  destruct p as [|x parent]; [reflexivity|].
  destruct (Fs.resolve (fs st) parent) as [[|]|e] eqn:Hpar.
  - destruct (fs st !! (x :: parent)) as [n|] eqn:Hp.
    + simpl in H.
      destruct (Fs.is_dir (fs st) (x :: parent)) eqn:Hd; inversion H; subst.
      exact Hd.
    + inversion H; subst. unfold Fs.is_dir; simpl.
      rewrite resolve_insert_deeper by (simpl; lia).
      rewrite Hpar, lookup_insert_eq. reflexivity.
  - simpl in H.
    destruct (Fs.is_dir (fs st) (x :: parent)) eqn:Hd; inversion H; subst.
    exact Hd.
  - destruct e; simpl in H; try discriminate H;
      destruct (Fs.is_dir (fs st) (x :: parent)) eqn:Hd; inversion H; subst;
      exact Hd.
Qed.

(** A call that succeeds leaves a directory behind. *)
Lemma mkdir_makes_dir (p : list string) :
  forall (st st' : state),
    Fs.mkdir p true true st = (Ret tt, st') -> Fs.is_dir (fs st') p = true.
Proof.
  destruct p as [|x parent]; intros st st' H; [reflexivity|].
  simpl in H. unfold try_except, Fs.os_mkdir, Fs.on_oserror in H.
  destruct (Fs.resolve (fs st) parent) as [[|]|e] eqn:Hpar.
  - destruct (fs st !! (x :: parent)) as [n|] eqn:Hp.
    + simpl in H.
      destruct (Fs.is_dir (fs st) (x :: parent)) eqn:Hd; inversion H; subst.
      exact Hd.
    + inversion H; subst. unfold Fs.is_dir; simpl.
      rewrite resolve_insert_deeper by (simpl; lia).
      rewrite Hpar, lookup_insert_eq. reflexivity.
  - simpl in H.
    destruct (Fs.is_dir (fs st) (x :: parent)) eqn:Hd; inversion H; subst.
    exact Hd.
  - destruct e; simpl in H;
      try (destruct (Fs.is_dir (fs st) (x :: parent)) eqn:Hd;
           inversion H; subst; exact Hd).
    unfold bind in H.
    destruct (Fs.mkdir parent true true st) as [[[]|e1] s2]; [|discriminate H].
    eapply mkdir_one_makes_dir; exact H.
Qed.

(** C8. The directory-creation step of startup is idempotent: on a log
    directory that already exists it raises nothing and changes nothing,
    and whenever a first run of the step succeeds (creating the missing
    segments of the path), a second run succeeds too and leaves the state
    of the first. *)
Theorem log_directory_step_idempotent (st : state) :
  (Fs.is_dir (fs st) log_dir = true ->
   Fs.mkdir log_dir true true st = (Ret tt, st))
  /\ (forall st' : state,
        Fs.mkdir log_dir true true st = (Ret tt, st') ->
        Fs.mkdir log_dir true true st' = (Ret tt, st')
        /\ (Fs.mkdir log_dir true true;; Fs.mkdir log_dir true true) st
           = (Ret tt, st')).
Proof.
  split.
  - apply mkdir_existing.
  - intros st' H.
    assert (H2 : Fs.mkdir log_dir true true st' = (Ret tt, st')).
    { apply mkdir_existing. eapply mkdir_makes_dir. exact H. }
    split; [exact H2|].
    unfold bind. rewrite H. exact H2.
Qed.

(** ** Startup as a whole *)

Lemma bind_ret_inv {A B : Type} (m : M A) (k : A -> M B)
  (st st' : state) (b : B) :
  bind m k st = (Ret b, st') ->
  exists (a : A) (s1 : state), m st = (Ret a, s1) /\ k a s1 = (Ret b, st').
Proof.
  unfold bind. destruct (m st) as [[a|e] s1]; intros H; [|discriminate H].
  exists a, s1. split; [reflexivity | exact H].
Qed.

(** A [startup] that yields an interval found every required variable,
    got through the directory step and parsed the interval; it has logged
    two lines and neither slept nor launched anything. *)
Lemma startup_ok (w : World) (st st1 : state) (h : Z) :
  startup w st = (Ret h, st1) ->
  missing_vars w = []
  /\ interval_hours w = Some h
  /\ st1 = set_fs (fs st1)
             (evolve st [Log INFO "Starting Auto-Apply backup service...";
                         Log INFO (configured_message h)] 0 0 0).
Proof.
  unfold startup, interval_hours. intros H.
  apply bind_ret_inv in H. destruct H as ([] & s0 & H0 & H).
  apply bind_ret_inv in H. destruct H as ([] & s1 & H1 & H).
  apply bind_ret_inv in H. destruct H as ([] & s2 & H2 & H).
  apply bind_ret_inv in H. destruct H as (n & s3 & H3 & H).
  apply bind_ret_inv in H. destruct H as ([] & s4 & H4 & H).
  inversion H0; subst s0. clear H0.
  destruct (missing_vars w) as [|v l]; [|discriminate H1].
  inversion H1; subst s1. clear H1.
  apply mkdir_frame in H2.
  unfold py_int in H3.
  destruct (int_value w (getenv_default w "BACKUP_INTERVAL_HOURS" "24"))
    as [n'|]; [|discriminate H3].
  inversion H3; subst. inversion H4; subst. inversion H; subst.
  repeat split; try reflexivity.
  simpl. rewrite H2. state_eq.
Qed.

(** Whatever its outcome, [startup] launches nothing and does not
    sleep. *)
Lemma startup_frame (w : World) (st st1 : state) (r : result Z) :
  startup w st = (r, st1) ->
  nrun st1 = nrun st /\ nsleep st1 = nsleep st /\ now st1 = now st
  /\ attempts (trace st1) = attempts (trace st)
  /\ schedule (trace st1) = schedule (trace st).
Proof.
  unfold startup, bind, log, ret, sys_exit, raise, py_int.
  pose proof (mkdir_frame log_dir true true) as Hmk. revert Hmk.
  generalize (Fs.mkdir log_dir true true). intros mk Hmk H.
  destruct (missing_vars w) as [|v l].
  - destruct (mk (emit (Log INFO "Starting Auto-Apply backup service...") st))
      as [[[]|e1] s1] eqn:Hs1; apply Hmk in Hs1.
    + destruct (int_value w (getenv_default w "BACKUP_INTERVAL_HOURS" "24"));
        inversion H; subst; rewrite Hs1; simpl;
        rewrite ?attempts_app, ?schedule_app; unfold attempts; simpl;
        rewrite ?app_nil_r; repeat split; lia.
    + inversion H; subst. rewrite Hs1; simpl.
      rewrite ?attempts_app, ?schedule_app; unfold attempts; simpl;
        rewrite ?app_nil_r; repeat split; lia.
  - inversion H; subst; simpl.
    rewrite ?attempts_app, ?schedule_app; unfold attempts; simpl;
      rewrite ?app_nil_r; repeat split; lia.
Qed.

(** An interval that [int()] rejects stops [startup], and so [main], with
    an exception. *)
Lemma startup_bad_interval (w : World) (st : state) :
  interval_hours w = None ->
  exists (e : exn) (st1 : state), startup w st = (Raise e, st1).
Proof.
  intros Hnone. destruct (startup w st) as [[h|e] st1] eqn:Hs.
  - apply startup_ok in Hs. destruct Hs as (_ & Hh & _). congruence.
  - exists e, st1. reflexivity.
Qed.


Lemma serve_unfold (w : World) (fuel : nat) (h : Z) (st1 : state) :
  serve w fuel h st1 =
  match run_backup w (emit (Log INFO "Running initial backup...") st1) with
  | (Ret _, s) => main_loop w fuel h (h * 3600) s
  | (Raise e, s) => (Raise e, s)
  end.
Proof. reflexivity. Qed.

Lemma main_loop_app (w : World) (h secs : Z) (m : nat) :
  forall (n : nat) (st : state),
    main_loop w (n + m) h secs st =
    match main_loop w n h secs st with
    | (Ret Alive, st') => main_loop w m h secs st'
    | other => other
    end.
Proof.
  induction n as [|n IH]; intros st; simpl; [reflexivity|].
  unfold bind. destruct (loop_iteration w h secs st) as [[[|]|e] s1].
  - apply IH.
  - reflexivity.
  - reflexivity.
Qed.

(** A service alive after [n] turns goes on from where it is. *)
Lemma main_resume (w : World) (f : gmap (list string) node) (h : Z)
  (n m : nat) (st : state) :
  main w n (boot f) = (Ret Alive, st) ->
  interval_hours w = Some h ->
  main w (n + m) (boot f) = main_loop w m h (h * 3600) st.
Proof.
  intros Hn Hh. rewrite main_startup in *.
  destruct (startup w (boot f)) as [[h'|e] st1] eqn:Hs; [|discriminate Hn].
  apply startup_ok in Hs. destruct Hs as (_ & Hh' & _).
  assert (h' = h) by congruence. subst h'.
  rewrite serve_unfold in *.
  destruct (run_backup w (emit (Log INFO "Running initial backup...") st1))
    as [[b|e] s]; [|discriminate Hn].
  rewrite main_loop_app, Hn. reflexivity.
Qed.

(** ** The boundary of [run_backup] *)

Lemma attempt_returns (c : child) :
  c <> Interrupted -> exists b : bool, attempt_result c = Ret b.
Proof.
  destruct c; intros H; simpl; eauto. congruence.
Qed.

Lemma attempt_time_bound (c : child) : attempt_time c <= 300.
Proof.
  destruct c; simpl; try lia;
    destruct (after <=? 300)%Z eqn:H; lia.
Qed.


(** C3. No attempt takes more than 300 seconds.  When the child is still
    running at that point it is killed, [run_backup] logs the timeout at
    ERROR level and returns [False], having taken 300 seconds exactly; in
    the loop the turn then ends normally, with the retry warning, and the
    next turn follows. *)
Theorem timeout_bounds_attempt (w : World) (st : state) :
  now (snd (run_backup w st)) <= now st + 300
  /\ (overruns 300 (runs w (nrun st)) ->
      run_backup w st =
      (Ret false,
       evolve st
         [Log INFO "Starting scheduled backup...";
          Run ["/app/scripts/backup.sh"] 300;
          Kill;
          Log ERROR "Backup timed out after 5 minutes"]
         300 1 0)
      /\ forall h secs : Z,
           sleep_outcome secs (sleeps w (nsleep st)) = Ret tt ->
           loop_iteration w h secs st =
           (Ret Next,
            evolve st
              [Log INFO (sleeping_message h);
               Slept secs;
               Log INFO "Starting scheduled backup...";
               Run ["/app/scripts/backup.sh"] 300;
               Kill;
               Log ERROR "Backup timed out after 5 minutes";
               Log WARNING "Backup failed, will retry at next interval"]
              (secs + 300) 1 1)).
Proof.
  split.
  - rewrite run_backup_spec. simpl.
    pose proof (attempt_time_bound (runs w (nrun st))). lia.
  - intros Hover.
    assert (Hc : attempt_result (runs w (nrun st)) = Ret false
                 /\ attempt_time (runs w (nrun st)) = 300
                 /\ attempt_events (runs w (nrun st)) =
                    [Log INFO "Starting scheduled backup...";
                     Run ["/app/scripts/backup.sh"] 300;
                     Kill;
                     Log ERROR "Backup timed out after 5 minutes"]).
    { destruct (runs w (nrun st))
        as [after rc out err| |code msg| |after rc msg];
        unfold overruns in Hover; try contradiction.
      - unfold attempt_result, attempt_time, attempt_events.
        assert (Hle : (after <=? 300)%Z = false)
          by (apply Z.leb_gt; exact Hover).
        rewrite Hle. repeat split.
      - repeat split.
      - unfold attempt_result, attempt_time, attempt_events.
        assert (Hle : (after <=? 300)%Z = false)
          by (apply Z.leb_gt; exact Hover).
        rewrite Hle. repeat split. }
    destruct Hc as (Hr & Ht & He). split.
    + rewrite run_backup_spec, Hr, Ht, He. reflexivity.
    + intros h secs Hs.
      rewrite (turn_attempt w h secs st false Hs Hr), Ht, He. reflexivity.
Qed.

(** ** The initial backup *)

(** C10. The initial backup runs before the [try] of the loop: a
    [KeyboardInterrupt] raised during it leaves [main] unhandled.  The
    process dies of the interrupt, not through exit code 0, and the
    shutdown message is not logged. *)
Theorem interrupt_during_initial_backup_escapes
  (w : World) (fuel : nat) (f : gmap (list string) node) (h : Z)
  (st1 : state) :
  startup w (boot f) = (Ret h, st1) ->
  runs w 0%nat = Interrupted ->
  fst (main w fuel (boot f)) = Raise KeyboardInterrupt
  /\ fate_of (fst (main w fuel (boot f))) = KilledBySigint
  /\ fate_of (fst (main w fuel (boot f))) <> ExitCode 0
  /\ trace (snd (main w fuel (boot f))) =
       [Log INFO "Starting Auto-Apply backup service...";
        Log INFO (configured_message h);
        Log INFO "Running initial backup...";
        Log INFO "Starting scheduled backup...";
        Run ["/app/scripts/backup.sh"] 300;
        Kill]
  /\ ~ logged INFO shutdown_message (trace (snd (main w fuel (boot f)))).
Proof.
  intros Hs Hr.
  rewrite main_startup, Hs, serve_unfold, run_backup_spec.
  destruct (startup_ok _ _ _ _ Hs) as (_ & _ & Hst1).
  assert (Hn : nrun st1 = 0%nat) by (rewrite Hst1; reflexivity).
  assert (Ht : trace st1 = [Log INFO "Starting Auto-Apply backup service...";
                            Log INFO (configured_message h)])
    by (rewrite Hst1; reflexivity).
  simpl. rewrite Hn, Hr. simpl. rewrite Ht. simpl.
  repeat split; try discriminate.
  unfold logged, shutdown_message, configured_message. simpl.
  intros [H|[H|[H|[H|[H|[H|[]]]]]]]; discriminate H.
Qed.

(** ** The interval override *)


(** ** The loop at its steady cadence *)

Lemma schedule_attempt_events (c : child) :
  schedule (attempt_events c) = [Attempt].
Proof.
  destruct c as [after rc out err| |code msg| |after rc msg]; simpl;
    try reflexivity.
  - destruct (after <=? 300)%Z; [destruct (rc =? 0)%Z|]; reflexivity.
  - destruct (after <=? 300)%Z; reflexivity.
Qed.

Lemma attempts_attempt_events (c : child) :
  attempts (attempt_events c) = 1%nat.
Proof.
  rewrite attempts_schedule, schedule_attempt_events. reflexivity.
Qed.

(** A length that [time.sleep] accepts. *)
Lemma accepted_length (secs : Z) (sig : sleep_signal) :
  0 <= secs <= sleep_max ->
  sleep_outcome secs sig =
  match sig with
  | Quiet => Ret tt
  | Interrupt => Raise KeyboardInterrupt
  | Fault msg => Raise (PyException msg)
  end.
Proof.
  intros [H0 H1]. unfold sleep_outcome.
  replace (sleep_max <? secs)%Z with false
    by (symmetry; apply Z.ltb_ge; lia).
  replace (secs <? - sleep_max)%Z with false
    by (symmetry; apply Z.ltb_ge; unfold sleep_max; lia).
  replace (secs <? 0)%Z with false by (symmetry; apply Z.ltb_ge; lia).
  reflexivity.
Qed.

Lemma quiet_sleep (secs : Z) :
  0 <= secs <= sleep_max -> sleep_outcome secs Quiet = Ret tt.
Proof. intros H. rewrite accepted_length by exact H. reflexivity. Qed.

Lemma interrupted_sleep (secs : Z) :
  0 <= secs <= sleep_max ->
  sleep_outcome secs Interrupt = Raise KeyboardInterrupt.
Proof. intros H. rewrite accepted_length by exact H. reflexivity. Qed.




(** ** Faults in the loop itself *)

Lemma schedule_crash_turns (w : World) (h secs : Z) :
  forall (n k : nat),
    schedule (crash_turns w h secs k n) = List.repeat (Wait 60) n.
Proof.
  induction n as [|n IH]; intros k; simpl; [reflexivity|].
  rewrite IH. reflexivity.
Qed.

Lemma crash_loop (w : World) (h secs : Z) :
  forall (n : nat) (st : state),
    (forall i : nat, (i < n)%nat ->
       faulty secs (sleeps w (nsleep st + 2 * i))
       /\ sleeps w (nsleep st + 2 * i + 1) = Quiet) ->
    main_loop w n h secs st =
    (Ret Alive,
     evolve st (crash_turns w h secs (nsleep st) n)
       (60 * Z.of_nat n) 0 (2 * n)).
Proof.
  induction n as [|n IH]; intros st H.
  - simpl. rewrite evolve_nothing. reflexivity.
  - destruct (H 0%nat ltac:(lia)) as [(e & He & Hex) Hq].
    replace (nsleep st + 2 * 0)%nat with (nsleep st) in * by lia.
    replace (nsleep st + 1)%nat with (S (nsleep st)) in Hq by lia.
    simpl main_loop. unfold bind.
    rewrite (turn_fault w h secs st e He Hex Hq).
    rewrite IH.
    + rewrite evolve_evolve, nsleep_evolve.
      replace (nsleep st + 2)%nat with (S (S (nsleep st))) by lia.
      simpl crash_turns. rewrite He. simpl raised_message.
      unfold evolve. f_equal. f_equal; lia.
    + intros i Hi. rewrite nsleep_evolve.
      destruct (H (S i) ltac:(lia)) as [Hf Hq'].
      replace (nsleep st + 2 + 2 * i)%nat with (nsleep st + 2 * S i)%nat
        by lia.
      split; assumption.
Qed.

(** C5, as the code has it.  Let the sleep of the loop raise an
    [Exception] in [n] turns in a row, the one-minute sleep of the handler
    completing each time.  Each of these turns logs the fault and sleeps
    60 seconds, no attempt is made, and after the [n] turns the loop is
    alive: it has not left through [break] nor through an exception, and
    goes on with the turns that follow.  The handler itself is not
    protected: an [Exception] raised by its one-minute sleep leaves the
    loop and ends the process with exit code 1. *)
Theorem loop_survives_faults (w : World) (h secs : Z) (n : nat) (st : state) :
  ((forall i : nat, (i < n)%nat ->
      faulty secs (sleeps w (nsleep st + 2 * i))
      /\ sleeps w (nsleep st + 2 * i + 1) = Quiet) ->
   exists st' : state,
     main_loop w n h secs st = (Ret Alive, st')
     /\ fate_of (fst (main_loop w n h secs st)) = StillRunning
     /\ trace st' = trace st ++ crash_turns w h secs (nsleep st) n
     /\ schedule (trace st') = schedule (trace st) ++ List.repeat (Wait 60) n
     /\ now st' = now st + 60 * Z.of_nat n
     /\ attempts (trace st') = attempts (trace st)
     /\ forall m : nat,
          main_loop w (n + m) h secs st = main_loop w m h secs st')
  /\ (forall (e : exn) (msg : string),
        sleep_outcome secs (sleeps w (nsleep st)) = Raise e ->
        is_Exception e = true ->
        sleeps w (S (nsleep st)) = Fault msg ->
        main_loop w (S n) h secs st =
        (Raise (PyException msg),
         evolve st [Log INFO (sleeping_message h); Log ERROR (crash_message e)]
           0 0 2)
        /\ fate_of (fst (main_loop w (S n) h secs st)) = ExitCode 1).
Proof.
  split.
  - intros H. pose proof (crash_loop w h secs n st H) as Hloop.
    eexists. split; [exact Hloop|].
    rewrite Hloop. simpl fst.
    split; [reflexivity|].
    split; [reflexivity|].
    rewrite trace_evolve, schedule_app, schedule_crash_turns.
    split; [reflexivity|].
    split; [reflexivity|].
    split.
    + rewrite !attempts_schedule, schedule_app, schedule_crash_turns.
      rewrite List.filter_app, length_app.
      assert (Hz : forall k : nat,
                 length (List.filter
                           (fun t => match t with
                                     | Attempt => true
                                     | _ => false
                                     end)
                           (List.repeat (Wait 60) k)) = 0%nat).
      { induction k as [|k IHk]; simpl; [reflexivity | exact IHk]. }
      rewrite Hz. lia.
    + intros m. rewrite main_loop_app, Hloop. reflexivity.
  - intros e msg Hs He Hf.
    assert (H : main_loop w (S n) h secs st =
                (Raise (PyException msg),
                 evolve st [Log INFO (sleeping_message h);
                            Log ERROR (crash_message e)] 0 0 2)).
    { simpl main_loop. unfold bind.
      rewrite (turn_fault_general w h secs st e Hs He), Hf. reflexivity. }
    rewrite H. split; reflexivity.
Qed.

(** ** Interrupting the loop *)

(** C7, as the code has it.  Take a service that is alive after [n]
    turns, with an interval that [time.sleep] accepts.  If SIGINT arrives
    during the interval sleep of the next turn, or during the attempt that
    follows it, that is inside the [try] of the loop, the handler of the
    loop logs the shutdown message as the last line, the loop is left
    through [break], [main] returns and the process ends with exit
    code 0. *)
Theorem interrupt_stops_loop_cleanly
  (w : World) (f : gmap (list string) node) (h : Z) (n : nat) (st : state) :
  main w n (boot f) = (Ret Alive, st) ->
  interval_hours w = Some h ->
  0 <= h * 3600 <= sleep_max ->
  sleeps w (nsleep st) = Interrupt
  \/ (sleeps w (nsleep st) = Quiet /\ runs w (nrun st) = Interrupted) ->
  forall fuel : nat, (n < fuel)%nat ->
  exists (st' : state) (evs : list event),
    main w fuel (boot f) = (Ret Stopped, st')
    /\ fate_of (fst (main w fuel (boot f))) = ExitCode 0
    /\ trace st' = trace st ++ evs ++ [Log INFO shutdown_message]
    /\ List.last (trace st') Kill = Log INFO shutdown_message
    /\ attempts evs = match sleeps w (nsleep st) with
                      | Quiet => 1%nat
                      | _ => 0%nat
                      end.
Proof.
  intros Hn Hh Hpos Hint fuel Hfuel.
  replace fuel with (n + S (fuel - S n))%nat by lia.
  rewrite (main_resume w f h n _ st Hn Hh).
  simpl main_loop. unfold bind.
  destruct Hint as [Hi|[Hq Hr]].
  - rewrite turn_interrupted_asleep
      by (rewrite Hi; apply interrupted_sleep; exact Hpos).
    exists (evolve st [Log INFO (sleeping_message h);
                       Log INFO shutdown_message] 0 0 1),
      [Log INFO (sleeping_message h)].
    rewrite Hi, trace_evolve.
    repeat split; try reflexivity.
    change [Log INFO (sleeping_message h); Log INFO shutdown_message]
      with ([Log INFO (sleeping_message h)] ++ [Log INFO shutdown_message]).
    rewrite app_assoc. apply last_last.
  - rewrite turn_interrupted_attempt
      by (try exact Hr; rewrite Hq; apply quiet_sleep; exact Hpos).
    eexists. exists ([Log INFO (sleeping_message h); Slept (h * 3600)]
                       ++ attempt_events Interrupted).
    rewrite Hq, trace_evolve.
    split; [reflexivity|]. split; [reflexivity|].
    split; [rewrite <- !app_assoc; reflexivity|].
    split; [|reflexivity].
    rewrite !app_assoc. apply last_last.
Qed.

(** ** The theorems at work on sample worlds *)

Example int_accepts :
  PyInt.parse 4300 "24" = Some 24
  /\ PyInt.parse 4300 " -1_000 " = Some (-1000)
  /\ PyInt.parse 4300 "+7" = Some 7
  /\ PyInt.parse 4300 "007" = Some 7
  /\ PyInt.parse 4300 (String (ascii_of_nat 9) "7") = Some 7.
Proof. repeat split. Qed.

Example int_rejects :
  PyInt.parse 4300 EmptyString = None
  /\ PyInt.parse 4300 "daily" = None
  /\ PyInt.parse 4300 "1.5" = None
  /\ PyInt.parse 4300 "- 1" = None
  /\ PyInt.parse 4300 "1__0" = None
  /\ PyInt.parse 4300 "12_" = None
  /\ PyInt.parse 4300 (String (ascii_of_nat 28) "7") = None.
Proof. repeat split. Qed.

Example repr_examples :
  repr_str "daily" = "'daily'"
  /\ repr_str "it's" = String double_quote ("it's" +:+ String double_quote EmptyString)
  /\ repr_str (String "1" (String (ascii_of_nat 9) "2")) = "'1\t2'"
  /\ repr_str (String (ascii_of_nat 28) "7") = "'\x1c7'".
Proof. repeat split. Qed.

(** The directory step creates what is missing, and fails when a regular
    file stands where a directory is needed. *)
Example mkdir_creates_segments :
  fs (snd (Fs.mkdir log_dir true true (boot ∅))) = fs_ok.
Proof. vm_compute. reflexivity. Qed.

Example mkdir_blocked_by_file :
  fst (Fs.mkdir log_dir true true (boot fs_blocked))
  = Raise (OSError ENOTDIR "Not a directory").
Proof. vm_compute. reflexivity. Qed.

(** With a negative interval every turn faults in [time.sleep]: after the
    initial backup no attempt is made, only one-minute sleeps. *)
Example negative_interval_backs_off :
  fate_of (fst (main negative_interval 3 (boot fs_ok))) = StillRunning
  /\ schedule (trace (snd (main negative_interval 3 (boot fs_ok)))) =
       [Attempt; Wait 60; Wait 60; Wait 60].
Proof. split; vm_compute; reflexivity. Qed.


(** C5 as first stated fails: when the one-minute sleep of the handler
    raises too, the exception leaves the loop and the process ends with
    exit code 1 in the first turn. *)
Lemma faulty_handler_ends_service :
  fst (main all_faults 3 (boot fs_ok)) = Raise (PyException "clock jumped")
  /\ fate_of (fst (main all_faults 3 (boot fs_ok))) = ExitCode 1
  /\ schedule (trace (snd (main all_faults 3 (boot fs_ok)))) = [Attempt].
Proof.
  repeat split; vm_compute; reflexivity.
Qed.

(** C7 as first stated fails: SIGINT arriving while the loop is in the
    one-minute sleep of its error handler is not handled.  The process
    dies of the interrupt and the shutdown message is not logged.  This
    happens after a fault of the interval sleep, and also, without any
    fault from outside, with a negative interval, where every turn of the
    loop ends in that sleep. *)
Lemma interrupt_in_handler_sleep_not_clean :
  (fst (main interrupted_backoff 3 (boot fs_ok)) = Raise KeyboardInterrupt
   /\ fate_of (fst (main interrupted_backoff 3 (boot fs_ok))) = KilledBySigint
   /\ ~ logged INFO shutdown_message
         (trace (snd (main interrupted_backoff 3 (boot fs_ok)))))
  /\ (fst (main negative_interrupted 3 (boot fs_ok)) = Raise KeyboardInterrupt
      /\ fate_of (fst (main negative_interrupted 3 (boot fs_ok)))
         = KilledBySigint
      /\ ~ logged INFO shutdown_message
            (trace (snd (main negative_interrupted 3 (boot fs_ok))))).
Proof.
  split.
  - split; [vm_compute; reflexivity|]. split; [vm_compute; reflexivity|].
    unfold logged. intros H. vm_compute in H.
    repeat (destruct H as [H|H]; [discriminate H|]). exact H.
  - split; [vm_compute; reflexivity|]. split; [vm_compute; reflexivity|].
    unfold logged. intros H. vm_compute in H.
    repeat (destruct H as [H|H]; [discriminate H|]). exact H.
Qed.

(** An interval too long for [time.sleep] is accepted at startup; every
    turn then fails in [time.sleep] and backs off for a minute. *)
Example huge_interval_backs_off :
  interval_hours huge_interval = Some 3000000
  /\ fate_of (fst (main huge_interval 2 (boot fs_ok))) = StillRunning
  /\ schedule (trace (snd (main huge_interval 2 (boot fs_ok)))) =
       [Attempt; Wait 60; Wait 60].
Proof. repeat split; vm_compute; reflexivity. Qed.


Lemma missing_required_variable_witness :
  fate_of (fst (main no_bucket 3 (boot fs_ok))) = ExitCode 1
  /\ trace (snd (main no_bucket 3 (boot fs_ok))) =
       [Log INFO "Starting Auto-Apply backup service...";
        Log ERROR ("Missing required environment variables: "
                     +:+ repr_list (missing_vars no_bucket))]
  /\ attempts (trace (snd (main no_bucket 3 (boot fs_ok)))) = 0%nat
  /\ nrun (snd (main no_bucket 3 (boot fs_ok))) = 0%nat.
Proof.
  apply (missing_required_variable_exits_1 no_bucket 3 fs_ok).
  right. reflexivity.
Defined.

Lemma empty_required_variable_witness :
  fate_of (fst (main empty_project 3 (boot fs_ok))) = ExitCode 1
  /\ trace (snd (main empty_project 3 (boot fs_ok))) =
       [Log INFO "Starting Auto-Apply backup service...";
        Log ERROR ("Missing required environment variables: "
                     +:+ repr_list (missing_vars empty_project))]
  /\ attempts (trace (snd (main empty_project 3 (boot fs_ok)))) = 0%nat
  /\ nrun (snd (main empty_project 3 (boot fs_ok))) = 0%nat.
Proof.
  apply (empty_required_variable_exits_1 empty_project 3 fs_ok).
  left. reflexivity.
Defined.


Lemma timeout_bounds_attempt_witness :
  run_backup stuck (boot fs_ok) =
  (Ret false,
   evolve (boot fs_ok)
     [Log INFO "Starting scheduled backup...";
      Run ["/app/scripts/backup.sh"] 300;
      Kill;
      Log ERROR "Backup timed out after 5 minutes"]
     300 1 0).
Proof.
  apply (proj2 (timeout_bounds_attempt stuck (boot fs_ok))).
  simpl. exact I.
Defined.

Lemma log_directory_step_witness :
  Fs.mkdir log_dir true true (snd (Fs.mkdir log_dir true true (boot ∅)))
  = (Ret tt, snd (Fs.mkdir log_dir true true (boot ∅))).
Proof.
  apply (proj2 (log_directory_step_idempotent (boot ∅))).
  reflexivity.
Defined.

Lemma interrupt_during_initial_backup_witness :
  fst (main interrupted_attempts 3 (boot fs_ok)) = Raise KeyboardInterrupt
  /\ fate_of (fst (main interrupted_attempts 3 (boot fs_ok))) = KilledBySigint.
Proof.
  destruct (interrupt_during_initial_backup_escapes
              interrupted_attempts 3 fs_ok 24
              (snd (startup interrupted_attempts (boot fs_ok))))
    as (H1 & H2 & _).
  - reflexivity.
  - reflexivity.
  - split; assumption.
Defined.



Lemma loop_survives_faults_witness :
  exists st' : state,
    main_loop flaky_sleep 3 24 86400 (boot fs_ok) = (Ret Alive, st')
    /\ fate_of (fst (main_loop flaky_sleep 3 24 86400 (boot fs_ok)))
       = StillRunning
    /\ trace st' =
       trace (boot fs_ok) ++ crash_turns flaky_sleep 24 86400 0 3
    /\ schedule (trace st') =
       schedule (trace (boot fs_ok)) ++ List.repeat (Wait 60) 3
    /\ now st' = now (boot fs_ok) + 60 * Z.of_nat 3
    /\ attempts (trace st') = attempts (trace (boot fs_ok))
    /\ forall m : nat,
         main_loop flaky_sleep (3 + m) 24 86400 (boot fs_ok)
         = main_loop flaky_sleep m 24 86400 st'.
Proof.
  apply (proj1 (loop_survives_faults flaky_sleep 24 86400 3 (boot fs_ok))).
  intros i Hi. destruct i as [|[|[|i]]]; [| | |lia];
    (split; [exists (PyException "clock jumped"); split; reflexivity
            | reflexivity]).
Defined.

Lemma interrupt_stops_loop_witness :
  exists (st' : state) (evs : list event),
    main stopped_asleep 5 (boot fs_ok) = (Ret Stopped, st')
    /\ fate_of (fst (main stopped_asleep 5 (boot fs_ok))) = ExitCode 0
    /\ trace st' =
       trace (snd (main stopped_asleep 2 (boot fs_ok)))
         ++ evs ++ [Log INFO shutdown_message]
    /\ List.last (trace st') Kill = Log INFO shutdown_message
    /\ attempts evs =
       match sleeps stopped_asleep
               (nsleep (snd (main stopped_asleep 2 (boot fs_ok)))) with
       | Quiet => 1%nat
       | _ => 0%nat
       end.
Proof.
  apply (interrupt_stops_loop_cleanly stopped_asleep fs_ok 24 2
           (snd (main stopped_asleep 2 (boot fs_ok)))).
  - vm_compute. reflexivity.
  - reflexivity.
  - unfold sleep_max. lia.
  - left. vm_compute. reflexivity.
  - lia.
Defined.

(** ** More on one attempt *)

Ltac not_among H :=
  simpl in H;
  repeat (destruct H as [H|H]; [discriminate H|]);
  try contradiction.

(** X1. Each call of [run_backup] launches the backup script exactly once.
    It returns [False] exactly when it has logged a line at ERROR level
    during the call, and it never logs a warning itself. *)
Theorem run_backup_logs_failures (w : World) (st : state) :
  exists evs : list event,
    trace (snd (run_backup w st)) = trace st ++ evs
    /\ attempts evs = 1%nat
    /\ (fst (run_backup w st) = Ret false
        <-> exists msg : string, In (Log ERROR msg) evs)
    /\ (forall msg : string, ~ In (Log WARNING msg) evs).
Proof.
  rewrite run_backup_spec. exists (attempt_events (runs w (nrun st))).
  split; [reflexivity|].
  split; [apply attempts_attempt_events|].
  unfold fst.
  destruct (runs w (nrun st))
    as [after rc out err| |code msg0| |after rc msg0];
    unfold attempt_result, attempt_events.
  - destruct (after <=? 300)%Z; [destruct (rc =? 0)%Z|]; simpl andb.
    + split; [split|].
      * intros H; discriminate H.
      * intros [msg H]. not_among H.
      * intros msg H. not_among H.
    + split; [split|].
      * intros _. eexists. simpl. right. right. left. reflexivity.
      * reflexivity.
      * intros msg H. not_among H.
    + split; [split|].
      * intros _. eexists. simpl. right. right. right. left. reflexivity.
      * reflexivity.
      * intros msg H. not_among H.
  - split; [split|].
    + intros _. eexists. simpl. right. right. right. left. reflexivity.
    + reflexivity.
    + intros msg H. not_among H.
  - split; [split|].
    + intros _. eexists. simpl. right. right. left. reflexivity.
    + reflexivity.
    + intros msg H. not_among H.
  - split; [split|].
    + intros H; discriminate H.
    + intros [msg H]. not_among H.
    + intros msg H. not_among H.
  - destruct (after <=? 300)%Z.
    + split; [split|].
      * intros _. eexists. simpl. right. right. left. reflexivity.
      * reflexivity.
      * intros msg H. not_among H.
    + split; [split|].
      * intros _. eexists. simpl. right. right. right. left. reflexivity.
      * reflexivity.
      * intros msg H. not_among H.
Qed.

(** ** Every turn of the loop, whatever happens in it *)

Lemma sleep_outcome_raises (secs : Z) (sig : sleep_signal) (e : exn) :
  sleep_outcome secs sig = Raise e ->
  e = KeyboardInterrupt
  \/ (is_Exception e = true
      /\ ((exists m, e = ValueError m) \/ (exists m, e = PyException m)
          \/ (exists m, e = OverflowError m))).
Proof.
  unfold sleep_outcome.
  destruct ((sleep_max <? secs)%Z || (secs <? - sleep_max)%Z).
  - intros H; inversion H; subst. right. split; [reflexivity|].
    right. right. eauto.
  - destruct (secs <? 0)%Z.
    + intros H; inversion H; subst. right. split; [reflexivity|].
      left. eauto.
    + destruct sig; intros H; inversion H; subst.
      * left. reflexivity.
      * right. split; [reflexivity|]. right. left. eauto.
Qed.

Lemma paced_weaken (secs : Z) (b : bool) (l : list tick) :
  paced secs false l = true -> paced secs b l = true.
Proof.
  destruct l as [|[|s] l]; simpl; intros H; try exact H. discriminate H.
Qed.

Lemma paced_app (secs : Z) (l2 : list tick) :
  paced secs false l2 = true ->
  forall (l1 : list tick) (b : bool),
    paced secs b l1 = true -> paced secs b (l1 ++ l2) = true.
Proof.
  intros H2. induction l1 as [|t l1 IH]; intros b H1; simpl.
  - apply paced_weaken. exact H2.
  - destruct t as [|s]; simpl in H1.
    + apply andb_true_iff in H1. destruct H1 as [Hb H1].
      rewrite Hb. simpl. apply IH. exact H1.
    + apply IH. exact H1.
Qed.

Lemma turn_summary (w : World) (h secs : Z) (st : state) :
  exists (evs : list event) (dt : Z) (dr ds : nat),
    snd (loop_iteration w h secs st) = evolve st evs dt dr ds
    /\ attempts evs = dr
    /\ (dr <= 1)%nat
    /\ paced secs false (schedule evs) = true
    /\ (fst (loop_iteration w h secs st) = Ret Break ->
        exists evs0, evs = evs0 ++ [Log INFO shutdown_message])
    /\ (forall e : exn,
          fst (loop_iteration w h secs st) = Raise e ->
          e = KeyboardInterrupt \/ exists m, e = PyException m).
Proof.
  destruct (sleep_outcome secs (sleeps w (nsleep st))) as [[]|e] eqn:Hs.
  - destruct (attempt_result (runs w (nrun st))) as [b|e] eqn:Hr.
    + rewrite (turn_attempt w h secs st b Hs Hr).
      do 4 eexists. split; [reflexivity|].
      rewrite !attempts_app, attempts_attempt_events.
      rewrite !schedule_app, schedule_attempt_events.
      split; [|split; [|split; [|split]]].
      * destruct b; reflexivity.
      * lia.
      * destruct b; simpl; rewrite Z.eqb_refl; reflexivity.
      * intros H; discriminate H.
      * intros e H; discriminate H.
    + assert (Hc : runs w (nrun st) = Interrupted).
      { destruct (runs w (nrun st)); try discriminate Hr. reflexivity. }
      rewrite (turn_interrupted_attempt w h secs st Hs Hc).
      do 4 eexists. split; [reflexivity|].
      split; [|split; [|split; [|split]]].
      * reflexivity.
      * lia.
      * simpl. rewrite Z.eqb_refl. reflexivity.
      * intros _.
        exists ([Log INFO (sleeping_message h); Slept secs]
                  ++ attempt_events Interrupted).
        rewrite <- app_assoc. reflexivity.
      * intros e0 H; discriminate H.
  - destruct (sleep_outcome_raises _ _ _ Hs) as [->|[He _]].
    + rewrite (turn_interrupted_asleep w h secs st Hs).
      do 4 eexists. split; [reflexivity|].
      split; [|split; [|split; [|split]]].
      * reflexivity.
      * lia.
      * reflexivity.
      * intros _. exists [Log INFO (sleeping_message h)]. reflexivity.
      * intros e0 H; discriminate H.
    + rewrite (turn_fault_general w h secs st e Hs He).
      destruct (sleeps w (S (nsleep st))) as [| |m];
        do 4 eexists; (split; [reflexivity|]);
        (split; [|split; [|split; [|split]]]);
        try reflexivity; try lia; try (intros H; discriminate H).
      * intros e0 H; discriminate H.
      * intros e0 H. inversion H. left. reflexivity.
      * intros e0 H. inversion H. right. eauto.
Qed.

Lemma loop_summary (w : World) (h secs : Z) :
  forall (n : nat) (st : state),
  exists (evs : list event) (dt : Z) (dr ds : nat),
    snd (main_loop w n h secs st) = evolve st evs dt dr ds
    /\ attempts evs = dr
    /\ (dr <= n)%nat
    /\ paced secs false (schedule evs) = true
    /\ (fst (main_loop w n h secs st) = Ret Stopped ->
        exists evs0, evs = evs0 ++ [Log INFO shutdown_message])
    /\ (forall e : exn,
          fst (main_loop w n h secs st) = Raise e ->
          e = KeyboardInterrupt \/ exists m, e = PyException m).
Proof.
  induction n as [|n IH]; intros st.
  - exists [], 0, 0%nat, 0%nat. simpl. rewrite evolve_nothing.
    repeat split; try reflexivity; try lia; intros; discriminate.
  - destruct (turn_summary w h secs st)
      as (evs & dt & dr & ds & Hst & Hatt & Hdr & Hp & Hbreak & Hraise).
    simpl main_loop. unfold bind.
    destruct (loop_iteration w h secs st) as [[[|]|e] s1]; simpl in *.
    + subst s1.
      destruct (IH (evolve st evs dt dr ds))
        as (evs' & dt' & dr' & ds' & Hst' & Hatt' & Hdr' & Hp' & Hstop' & Hr').
      exists (evs ++ evs'), (dt + dt'), (dr + dr')%nat, (ds + ds')%nat.
      rewrite Hst', evolve_evolve.
      split; [reflexivity|].
      split; [rewrite attempts_app; lia|].
      split; [lia|].
      split; [rewrite schedule_app; apply paced_app; assumption|].
      split.
      * intros H. destruct (Hstop' H) as [evs0 ->].
        exists (evs ++ evs0). rewrite app_assoc. reflexivity.
      * exact Hr'.
    + exists evs, dt, dr, ds.
      split; [exact Hst|]. split; [exact Hatt|]. split; [lia|].
      split; [exact Hp|]. split.
      * intros _. apply Hbreak. reflexivity.
      * intros e H; discriminate H.
    + exists evs, dt, dr, ds.
      split; [exact Hst|]. split; [exact Hatt|]. split; [lia|].
      split; [exact Hp|]. split.
      * intros H; discriminate H.
      * intros e0 H. inversion H; subst. apply Hraise. reflexivity.
Qed.


(** X3. The loop is left through [break] only by the handler of
    [KeyboardInterrupt]: whenever the loop stops, the shutdown message is
    the last line logged; and the only exceptions that leave the loop are
    a [KeyboardInterrupt] or an exception raised by the sleep inside the
    [except Exception] handler. *)
Theorem loop_stops_only_on_interrupt
  (w : World) (h secs : Z) (n : nat) (st : state) :
  (fst (main_loop w n h secs st) = Ret Stopped ->
   List.last (trace (snd (main_loop w n h secs st))) Kill
   = Log INFO shutdown_message)
  /\ (forall e : exn,
        fst (main_loop w n h secs st) = Raise e ->
        e = KeyboardInterrupt \/ exists m : string, e = PyException m).
Proof.
  destruct (loop_summary w h secs n st)
    as (evs & dt & dr & ds & Hst & _ & _ & _ & Hstop & Hraise).
  split; [|exact Hraise].
  intros H. destruct (Hstop H) as [evs0 ->].
  rewrite Hst, trace_evolve, app_assoc. apply last_last.
Qed.

(** ** The service does not stop on its own *)

Lemma loop_alive (w : World) (h secs : Z) :
  (forall k : nat, sleeps w k <> Interrupt) ->
  (forall k : nat, runs w k <> Interrupted) ->
  (forall (k : nat) (e : exn),
     sleep_outcome secs (sleeps w k) = Raise e -> sleeps w (S k) = Quiet) ->
  forall (n : nat) (st : state),
    fst (main_loop w n h secs st) = Ret Alive.
Proof.
  intros Hs Hr Hq. induction n as [|n IH]; intros st; [reflexivity|].
  simpl main_loop. unfold bind.
  destruct (sleep_outcome secs (sleeps w (nsleep st))) as [[]|e] eqn:Hso.
  - destruct (attempt_returns _ (Hr (nrun st))) as [b Hb].
    rewrite (turn_attempt w h secs st b Hso Hb). apply IH.
  - destruct (sleep_outcome_raises _ _ _ Hso) as [->|[He _]].
    + exfalso. unfold sleep_outcome in Hso.
      destruct ((sleep_max <? secs)%Z || (secs <? - sleep_max)%Z);
        [discriminate Hso|].
      destruct (secs <? 0)%Z; [discriminate Hso|].
      destruct (sleeps w (nsleep st)) eqn:Hsig; try discriminate Hso.
      exact (Hs _ Hsig).
    + rewrite (turn_fault w h secs st e Hso He (Hq _ _ Hso)). apply IH.
Qed.

(** X4. Once startup has passed, the service never ends on its own.  In a
    world without SIGINT, and in which the one-minute sleep of the error
    handler completes whenever it is reached, the process is still running
    after any number of turns, whatever mix of successful, failed, timed
    out and unlaunchable attempts and of faulty sleeps it meets. *)
Theorem service_runs_until_interrupted
  (w : World) (f : gmap (list string) node) (h : Z) (st1 : state)
  (fuel : nat) :
  startup w (boot f) = (Ret h, st1) ->
  (forall k : nat, sleeps w k <> Interrupt) ->
  (forall k : nat, runs w k <> Interrupted) ->
  (forall (k : nat) (e : exn),
     sleep_outcome (h * 3600) (sleeps w k) = Raise e ->
     sleeps w (S k) = Quiet) ->
  fst (main w fuel (boot f)) = Ret Alive
  /\ fate_of (fst (main w fuel (boot f))) = StillRunning.
Proof.
  intros Hst Hs Hr Hq.
  assert (H : fst (main w fuel (boot f)) = Ret Alive).
  { rewrite main_startup, Hst, serve_unfold, run_backup_spec.
    match goal with
    | |- context [attempt_result ?c] =>
        destruct (attempt_returns c (Hr _)) as [b Hb]; rewrite Hb
    end.
    apply loop_alive; assumption. }
  rewrite H. split; reflexivity.
Qed.

(** X5. The handler of [except Exception] is itself unprotected: when the
    sleep of the loop has raised an [Exception] and SIGINT arrives during
    the one-minute sleep that follows, the [KeyboardInterrupt] leaves the
    loop unhandled.  The fault has been logged, the shutdown message has
    not, and the process dies of the interrupt instead of exiting with
    code 0. *)
Theorem interrupt_during_backoff_escapes
  (w : World) (h secs : Z) (n : nat) (st : state) (e : exn) :
  sleep_outcome secs (sleeps w (nsleep st)) = Raise e ->
  is_Exception e = true ->
  sleeps w (S (nsleep st)) = Interrupt ->
  main_loop w (S n) h secs st =
  (Raise KeyboardInterrupt,
   evolve st [Log INFO (sleeping_message h); Log ERROR (crash_message e)]
     0 0 2)
  /\ fate_of (fst (main_loop w (S n) h secs st)) = KilledBySigint.
Proof.
  intros Hs He Hi.
  assert (H : main_loop w (S n) h secs st =
              (Raise KeyboardInterrupt,
               evolve st [Log INFO (sleeping_message h);
                          Log ERROR (crash_message e)] 0 0 2)).
  { simpl main_loop. unfold bind.
    rewrite (turn_fault_general w h secs st e Hs He), Hi. reflexivity. }
  rewrite H. split; reflexivity.
Qed.

(** ** Wall-clock time of the steady loop *)

Lemma attempts_time_bound (w : World) :
  forall (n k : nat), attempts_time w k n <= 300 * Z.of_nat n.
Proof.
  induction n as [|n IH]; intros k; simpl attempts_time; [lia|].
  pose proof (attempt_time_bound (runs w k)). specialize (IH (S k)). lia.
Qed.

(** X6. The interval runs from the end of one attempt to the start of the
    next: with an interval that [time.sleep] accepts, sleeps that complete
    and attempts that are not interrupted, [n] turns take [n] intervals
    plus the time spent in the [n] attempts, so at most [n] times the
    interval plus 300 seconds. *)
Theorem steady_loop_duration (w : World) (h secs : Z) :
  0 <= secs <= sleep_max ->
  (forall k : nat, sleeps w k = Quiet) ->
  (forall k : nat, runs w k <> Interrupted) ->
  forall (n : nat) (st : state),
    now (snd (main_loop w n h secs st)) =
    now st + Z.of_nat n * secs + attempts_time w (nrun st) n
    /\ now (snd (main_loop w n h secs st))
       <= now st + Z.of_nat n * (secs + 300).
Proof.
  intros Hsecs Hq Hr.
  assert (Heq : forall (n : nat) (st : state),
             now (snd (main_loop w n h secs st)) =
             now st + Z.of_nat n * secs + attempts_time w (nrun st) n).
  { induction n as [|n IH]; intros st.
    - simpl. lia.
    - destruct (attempt_returns _ (Hr (nrun st))) as [b Hb].
      simpl main_loop. unfold bind.
      rewrite (turn_attempt w h secs st b);
        [| rewrite Hq; apply quiet_sleep; exact Hsecs | exact Hb].
      rewrite IH, nrun_evolve.
      replace (nrun st + 1)%nat with (S (nrun st)) by lia.
      simpl attempts_time. unfold evolve; cbn [now]. lia. }
  intros n st. split; [apply Heq|].
  rewrite Heq. pose proof (attempts_time_bound w n (nrun st)). lia.
Qed.

(** ** Which exceptions end [main] *)

Lemma os_mkdir_raises (p : list string) (st st' : state) (e : exn) :
  Fs.os_mkdir p st = (Raise e, st') -> exists c m, e = OSError c m.
Proof.
  unfold Fs.os_mkdir. destruct p as [|x parent].
  - intros H; inversion H; eauto.
  - destruct (Fs.resolve (fs st) parent) as [[|]|c].
    + destruct (fs st !! (x :: parent)); intros H; inversion H; eauto.
    + intros H; inversion H; eauto.
    + intros H; inversion H; eauto.
Qed.

Lemma on_oserror_raises (ok : bool) (p : list string) (e e' : exn)
  (st st' : state) :
  Fs.on_oserror ok p e st = (Raise e', st') -> e' = e.
Proof.
  unfold Fs.on_oserror.
  destruct (negb ok || negb (Fs.is_dir (fs st) p)); intros H; inversion H.
  reflexivity.
Qed.

Lemma mkdir_one_raises (ok : bool) (p : list string) (st st' : state)
  (e : exn) :
  Fs.mkdir_one ok p st = (Raise e, st') -> exists c m, e = OSError c m.
Proof.
  unfold Fs.mkdir_one, try_except. intros H.
  destruct (Fs.os_mkdir p st) as [[[]|e0] s1] eqn:Hos; [discriminate H|].
  destruct (os_mkdir_raises _ _ _ _ Hos) as (c & m & ->).
  destruct c; try (apply on_oserror_raises in H; subst; eauto).
  inversion H; eauto.
Qed.

Lemma mkdir_raises (p : list string) :
  forall (parents ok : bool) (st st' : state) (e : exn),
    Fs.mkdir p parents ok st = (Raise e, st') -> exists c m, e = OSError c m.
Proof.
  induction p as [|x parent IH]; intros parents ok st st' e H;
    simpl in H; unfold try_except in H.
  - destruct (Fs.os_mkdir [] st) as [[[]|e0] s1] eqn:Hos; [discriminate H|].
    destruct (os_mkdir_raises _ _ _ _ Hos) as (c & m & ->).
    destruct c; try (apply on_oserror_raises in H; subst; eauto).
    inversion H; eauto.
  - destruct (Fs.os_mkdir (x :: parent) st) as [[[]|e0] s1] eqn:Hos;
      [discriminate H|].
    destruct (os_mkdir_raises _ _ _ _ Hos) as (c & m & ->).
    destruct c; try (apply on_oserror_raises in H; subst; eauto).
    destruct parents; simpl in H; [|inversion H; eauto].
    unfold bind in H.
    destruct (Fs.mkdir parent true true s1) as [[[]|e1] s2] eqn:Hpar.
    + eapply mkdir_one_raises; exact H.
    + inversion H; subst. eapply IH; exact Hpar.
Qed.

(** [startup] ends with [SystemExit(1)] when a required variable is
    missing, and otherwise with nothing but the [OSError] of the directory
    step or the [ValueError] of [int()]. *)
Lemma startup_raises (w : World) (st st1 : state) (e : exn) :
  startup w st = (Raise e, st1) ->
  (missing_vars w <> [] /\ e = SystemExit 1)
  \/ (missing_vars w = []
      /\ ((exists c m, e = OSError c m) \/ (exists m, e = ValueError m))).
Proof.
  unfold startup, bind, log, ret, sys_exit, raise, py_int.
  pose proof (mkdir_raises log_dir true true) as Hmk. revert Hmk.
  generalize (Fs.mkdir log_dir true true). intros mk Hmk H.
  destruct (missing_vars w) as [|v l].
  - right. split; [reflexivity|].
    destruct (mk (emit (Log INFO "Starting Auto-Apply backup service...") st))
      as [[[]|e1] s1] eqn:Hs1.
    + destruct (int_value w (getenv_default w "BACKUP_INTERVAL_HOURS" "24"));
        inversion H; subst. right. eauto.
    + inversion H; subst. left. eapply Hmk. exact Hs1.
  - left. inversion H; subst. split; [discriminate | reflexivity].
Qed.

Lemma main_raises (w : World) (fuel : nat) (st st' : state) (e : exn) :
  main w fuel st = (Raise e, st') ->
  (missing_vars w <> [] /\ e = SystemExit 1)
  \/ (missing_vars w = []
      /\ ((exists c m, e = OSError c m) \/ (exists m, e = ValueError m)
          \/ e = KeyboardInterrupt \/ (exists m, e = PyException m))).
Proof.
  rewrite main_startup. intros H.
  destruct (startup w st) as [[h|e0] st1] eqn:Hs.
  - destruct (startup_ok _ _ _ _ Hs) as (Hm & _ & _).
    right. split; [exact Hm|]. right. right.
    rewrite serve_unfold, run_backup_spec in H.
    match type of H with
    | context [attempt_result ?c] => destruct (attempt_result c) eqn:Hr
    end.
    + match type of H with
      | main_loop w fuel h ?secs ?s = _ =>
          destruct (loop_summary w h secs fuel s)
            as (evs & dt & dr & ds & _ & _ & _ & _ & _ & Hraise)
      end.
      rewrite H in Hraise. apply Hraise. reflexivity.
    + inversion H; subst. left.
      match type of Hr with
      | attempt_result ?c = _ => destruct c; try discriminate Hr
      end.
      inversion Hr. reflexivity.
  - inversion H; subst.
    destruct (startup_raises _ _ _ _ Hs) as [Hl|[Hm [Ho|Hv]]].
    + left. exact Hl.
    + right. split; [exact Hm|]. left. exact Ho.
    + right. split; [exact Hm|]. right. left. exact Hv.
Qed.

Lemma missing_vars_empty (w : World) :
  missing_vars w = []
  <-> truthy (getenv w "GOOGLE_CLOUD_PROJECT") = true
      /\ truthy (getenv w "GOOGLE_CLOUD_STORAGE_BUCKET") = true.
Proof.
  unfold missing_vars, required_vars. simpl.
  destruct (truthy (getenv w "GOOGLE_CLOUD_PROJECT"));
    destruct (truthy (getenv w "GOOGLE_CLOUD_STORAGE_BUCKET")); simpl;
    split; intros H; try discriminate H; try (destruct H; discriminate);
    auto.
Qed.

(** X7. [sys.exit] is reached for one reason only: [main] ends with
    [SystemExit] exactly when one of the two required variables is unset
    or empty, the code is then 1, and the file system is as it was found.
    With both variables set to non-empty text, [main] never ends with
    [SystemExit]. *)
Theorem system_exit_only_for_missing_config
  (w : World) (fuel : nat) (st : state) (code : Z) :
  (fst (main w fuel st) = Raise (SystemExit code)
   <-> code = 1
       /\ (truthy (getenv w "GOOGLE_CLOUD_PROJECT") = false
           \/ truthy (getenv w "GOOGLE_CLOUD_STORAGE_BUCKET") = false))
  /\ (fst (main w fuel st) = Raise (SystemExit code) ->
      fs (snd (main w fuel st)) = fs st
      /\ nsleep (snd (main w fuel st)) = nsleep st).
Proof.
  assert (Hmiss : missing_vars w <> []
                  <-> truthy (getenv w "GOOGLE_CLOUD_PROJECT") = false
                      \/ truthy (getenv w "GOOGLE_CLOUD_STORAGE_BUCKET") = false).
  { pose proof (missing_vars_empty w) as He.
    destruct (truthy (getenv w "GOOGLE_CLOUD_PROJECT"));
      destruct (truthy (getenv w "GOOGLE_CLOUD_STORAGE_BUCKET"));
      split; intros H; auto;
      try (exfalso; apply H; apply He; split; reflexivity);
      try (destruct H; discriminate);
      intros Hn; apply He in Hn; destruct Hn; discriminate. }
  assert (Hexit : fst (main w fuel st) = Raise (SystemExit code) ->
                  code = 1 /\ missing_vars w <> []).
  { intros H. destruct (main w fuel st) as [r st'] eqn:Hmain.
    simpl in H. subst r.
    destruct (main_raises _ _ _ _ _ Hmain)
      as [[Hm He]|[_ [(c & m & He)|[(m & He)|[He|(m & He)]]]]];
      try discriminate He.
    inversion He. split; [reflexivity | exact Hm]. }
  split; [split|].
  - intros H. destruct (Hexit H) as [Hc Hm]. split; [exact Hc|].
    apply Hmiss. exact Hm.
  - intros [-> Hf]. rewrite main_refuses by (apply Hmiss; exact Hf).
    reflexivity.
  - intros H. destruct (Hexit H) as [_ Hm].
    rewrite main_refuses by exact Hm. split; reflexivity.
Qed.

(** X8. Exit code 0 means a clean shutdown: whenever the process ends with
    exit code 0, the last line it logged is the shutdown message of the
    [KeyboardInterrupt] handler. *)
Theorem exit_zero_only_after_shutdown (w : World) (fuel : nat) (st : state) :
  fate_of (fst (main w fuel st)) = ExitCode 0 ->
  fst (main w fuel st) = Ret Stopped
  /\ List.last (trace (snd (main w fuel st))) Kill
     = Log INFO shutdown_message.
Proof.
  intros Hfate.
  destruct (main w fuel st) as [r st'] eqn:Hmain. simpl in *.
  destruct r as [[|]|e].
  - discriminate Hfate.
  - split; [reflexivity|].
    rewrite main_startup in Hmain.
    destruct (startup w st) as [[h|e0] st1]; [|discriminate Hmain].
    rewrite serve_unfold in Hmain.
    destruct (run_backup w (emit (Log INFO "Running initial backup...") st1))
      as [[b|e1] s]; [|discriminate Hmain].
    destruct (loop_summary w h (h * 3600) fuel s)
      as (evs & dt & dr & ds & Hst & _ & _ & _ & Hstop & _).
    rewrite Hmain in Hst, Hstop. simpl in Hst, Hstop.
    destruct (Hstop eq_refl) as [evs0 ->].
    rewrite Hst, trace_evolve, app_assoc. apply last_last.
  - exfalso.
    destruct (main_raises _ _ _ _ _ Hmain)
      as [[_ ->]|[_ [(c & m & ->)|[(m & ->)|[->|(m & ->)]]]]];
      discriminate Hfate.
Qed.

(** ** The initial backup and the steps before it *)

Lemma attempt_events_no_warning (c : child) (msg : string) :
  ~ In (Log WARNING msg) (attempt_events c).
Proof.
  intros H. destruct c as [after rc out err| |code m| |after rc m];
    unfold attempt_events in H.
  - destruct (after <=? 300)%Z; [destruct (rc =? 0)%Z|]; not_among H.
  - not_among H.
  - not_among H.
  - not_among H.
  - destruct (after <=? 300)%Z; not_among H.
Qed.

(** X9. The result of the initial backup is not looked at: whether it
    succeeded, failed, timed out or could not be launched, [main] goes on
    to the loop with the same interval, and no retry warning is logged for
    it. *)
Theorem initial_backup_result_ignored
  (w : World) (fuel : nat) (f : gmap (list string) node) (h : Z)
  (st1 : state) :
  startup w (boot f) = (Ret h, st1) ->
  runs w 0%nat <> Interrupted ->
  main w fuel (boot f) =
  main_loop w fuel h (h * 3600)
    (evolve st1
       (Log INFO "Running initial backup..." :: attempt_events (runs w 0%nat))
       (attempt_time (runs w 0%nat)) 1 0)
  /\ forall msg : string,
       ~ In (Log WARNING msg)
           (trace st1 ++ Log INFO "Running initial backup..."
              :: attempt_events (runs w 0%nat)).
Proof.
  intros Hs Hr.
  destruct (startup_ok _ _ _ _ Hs) as (_ & _ & Hst1).
  assert (Hn : nrun st1 = 0%nat) by (rewrite Hst1; reflexivity).
  assert (Ht : trace st1 = [Log INFO "Starting Auto-Apply backup service...";
                            Log INFO (configured_message h)])
    by (rewrite Hst1; reflexivity).
  split.
  - rewrite main_startup, Hs, serve_unfold, run_backup_spec.
    simpl nrun. rewrite Hn.
    destruct (attempt_returns _ Hr) as [b ->].
    f_equal. state_eq.
  - intros msg H. rewrite Ht in H. simpl in H.
    destruct H as [H|[H|[H|H]]]; try discriminate H.
    exact (attempt_events_no_warning _ _ H).
Qed.

(** X10. An error of the directory step is fatal: when
    [Path('/app/logs').mkdir(...)] raises, the [OSError] leaves [main]
    unhandled, after the first log line and before the interval is read
    or any attempt is made, and the process exits with code 1. *)
Theorem directory_failure_is_fatal
  (w : World) (fuel : nat) (st s1 : state) (e : exn) :
  missing_vars w = [] ->
  Fs.mkdir log_dir true true
    (emit (Log INFO "Starting Auto-Apply backup service...") st)
  = (Raise e, s1) ->
  main w fuel st = (Raise e, s1)
  /\ fate_of (fst (main w fuel st)) = ExitCode 1
  /\ trace s1 = trace st ++ [Log INFO "Starting Auto-Apply backup service..."]
  /\ nrun s1 = nrun st.
Proof.
  intros Hm Hmk.
  assert (Hmain : main w fuel st = (Raise e, s1)).
  { rewrite main_startup. unfold startup, bind, log, ret.
    rewrite Hm, Hmk. reflexivity. }
  rewrite Hmain.
  destruct (mkdir_raises _ _ _ _ _ _ Hmk) as (c & m & ->).
  apply mkdir_frame in Hmk.
  split; [reflexivity|]. split; [reflexivity|].
  rewrite Hmk. split; reflexivity.
Qed.

(** ** When the directory step fails *)

Lemma is_dir_resolve (f : gmap (list string) node) (p : list string) :
  Fs.is_dir f p = true -> Fs.resolve f p = inl Dir.
Proof.
  unfold Fs.is_dir. destruct (Fs.resolve f p) as [[|]|e]; try discriminate.
  reflexivity.
Qed.

(** With no regular file on a path, the path resolves to a directory or
    something on it is missing. *)
Lemma resolve_without_file (f : gmap (list string) node) (p : list string) :
  (forall q : list string, q <> [] -> q `suffix_of` p -> f !! q <> Some File) ->
  Fs.resolve f p = inl Dir \/ Fs.resolve f p = inr ENOENT.
Proof.
  induction p as [|x parent IH]; intros H; simpl; [left; reflexivity|].
  destruct IH as [-> | ->].
  - intros q Hq Hs. apply H; [exact Hq|]. apply suffix_cons_r. exact Hs.
  - destruct (f !! (x :: parent)) as [[|]|] eqn:Hp; auto.
    exfalso. apply (H (x :: parent)); [discriminate | reflexivity | exact Hp].
  - right. reflexivity.
Qed.

(** In the lemmas below the new file system has every entry of the old
    one, and directories where the old one had nothing. *)
Lemma mkdir_one_without_file (x : string) (parent : list string)
  (st : state) :
  Fs.resolve (fs st) parent = inl Dir ->
  fs st !! (x :: parent) <> Some File ->
  exists st' : state,
    Fs.mkdir_one true (x :: parent) st = (Ret tt, st')
    /\ forall q : list string,
         fs st' !! q = fs st !! q
         \/ (fs st !! q = None /\ fs st' !! q = Some Dir).
Proof.
  intros Hpar Hp.
  unfold Fs.mkdir_one, try_except, Fs.os_mkdir. rewrite Hpar.
  destruct (fs st !! (x :: parent)) as [[|]|] eqn:Hl.
  - exists st. split; [|intros q; left; reflexivity].
    unfold Fs.on_oserror, Fs.is_dir. simpl. rewrite Hpar, Hl. reflexivity.
  - congruence.
  - eexists. split; [reflexivity|]. intros q. simpl.
    destruct (decide (q = x :: parent)) as [->|Hne].
    + right. rewrite lookup_insert_eq. split; [exact Hl | reflexivity].
    + left. apply lookup_insert_ne. congruence.
Qed.

Lemma mkdir_without_file (p : list string) :
  forall st : state,
    (forall q : list string,
       q <> [] -> q `suffix_of` p -> fs st !! q <> Some File) ->
    exists st' : state,
      Fs.mkdir p true true st = (Ret tt, st')
      /\ forall q : list string,
           fs st' !! q = fs st !! q
           \/ (fs st !! q = None /\ fs st' !! q = Some Dir).
Proof.
  induction p as [|x parent IH]; intros st H.
  - exists st. split; [reflexivity | intros q; left; reflexivity].
  - assert (Hpar : forall q : list string,
               q <> [] -> q `suffix_of` parent -> fs st !! q <> Some File).
    { intros q Hq Hs. apply H; [exact Hq|]. apply suffix_cons_r. exact Hs. }
    assert (Hp : fs st !! (x :: parent) <> Some File).
    { apply H; [discriminate | reflexivity]. }
    destruct (resolve_without_file (fs st) parent Hpar) as [Hr|Hr].
    + destruct (mkdir_one_without_file x parent st Hr Hp) as (st' & Hone & Hext).
      exists st'. split; [|exact Hext].
      revert Hone. simpl. unfold Fs.mkdir_one, try_except, Fs.os_mkdir.
      rewrite Hr. destruct (fs st !! (x :: parent)); intros Hone; exact Hone.
    + destruct (IH st Hpar) as (s1 & Hmk & Hext1).
      assert (Hr1 : Fs.resolve (fs s1) parent = inl Dir).
      { apply is_dir_resolve. eapply mkdir_makes_dir. exact Hmk. }
      assert (Hp1 : fs s1 !! (x :: parent) <> Some File).
      { destruct (Hext1 (x :: parent)) as [Heq|[_ Heq]]; rewrite Heq;
          [exact Hp | discriminate]. }
      destruct (mkdir_one_without_file x parent s1 Hr1 Hp1)
        as (st' & Hone & Hext2).
      exists st'. split.
      * simpl. unfold try_except at 1. unfold Fs.os_mkdir at 1.
        rewrite Hr. unfold bind. rewrite Hmk. exact Hone.
      * intros q. destruct (Hext2 q) as [E2|[N2 D2]];
          destruct (Hext1 q) as [E1|[N1 D1]].
        -- left. congruence.
        -- right. split; [exact N1 | congruence].
        -- right. split; [congruence | exact D2].
        -- right. split; [exact N1 | exact D2].
Qed.

(** The directory step never removes or replaces an entry. *)
Lemma os_mkdir_keeps (p : list string) (st st' : state) (r : result unit) :
  Fs.os_mkdir p st = (r, st') ->
  forall (q : list string) (n : node),
    fs st !! q = Some n -> fs st' !! q = Some n.
Proof.
  unfold Fs.os_mkdir. intros H q n Hq.
  destruct p as [|x parent]; [inversion H; subst; exact Hq|].
  destruct (Fs.resolve (fs st) parent) as [[|]|e];
    try (inversion H; subst; exact Hq).
  destruct (fs st !! (x :: parent)) eqn:Hp; inversion H; subst;
    [exact Hq|].
  simpl. rewrite lookup_insert_ne; [exact Hq|]. congruence.
Qed.

Lemma mkdir_one_keeps (ok : bool) (p : list string) (st st' : state)
  (r : result unit) :
  Fs.mkdir_one ok p st = (r, st') ->
  forall (q : list string) (n : node),
    fs st !! q = Some n -> fs st' !! q = Some n.
Proof.
  unfold Fs.mkdir_one, try_except. intros H.
  destruct (Fs.os_mkdir p st) as [[[]|e] s1] eqn:Hos;
    pose proof (os_mkdir_keeps _ _ _ _ Hos) as Hk.
  - inversion H; subst. exact Hk.
  - destruct e as [|m|c m|m|m| |c]; try (inversion H; subst; exact Hk).
    destruct c; try (apply on_oserror_frame in H; subst; exact Hk).
    inversion H; subst; exact Hk.
Qed.

Lemma mkdir_keeps (p : list string) :
  forall (parents ok : bool) (st st' : state) (r : result unit),
    Fs.mkdir p parents ok st = (r, st') ->
    forall (q : list string) (n : node),
      fs st !! q = Some n -> fs st' !! q = Some n.
Proof.
  induction p as [|x parent IH]; intros parents ok st st' r H;
    simpl in H; unfold try_except in H.
  - destruct (Fs.os_mkdir [] st) as [[[]|e] s1] eqn:Hos;
      pose proof (os_mkdir_keeps _ _ _ _ Hos) as Hk.
    + inversion H; subst; exact Hk.
    + destruct e as [|m|c m|m|m| |c]; try (inversion H; subst; exact Hk).
      destruct c; try (apply on_oserror_frame in H; subst; exact Hk).
      inversion H; subst; exact Hk.
  - destruct (Fs.os_mkdir (x :: parent) st) as [[[]|e] s1] eqn:Hos;
      pose proof (os_mkdir_keeps _ _ _ _ Hos) as Hk.
    + inversion H; subst; exact Hk.
    + destruct e as [|m|c m|m|m| |c]; try (inversion H; subst; exact Hk).
      destruct c; try (apply on_oserror_frame in H; subst; exact Hk).
      destruct parents; simpl in H; [|inversion H; subst; exact Hk].
      unfold bind in H.
      destruct (Fs.mkdir parent true true s1) as [[[]|e1] s2] eqn:Hpar;
        pose proof (IH _ _ _ _ _ Hpar) as Hk1.
      * pose proof (mkdir_one_keeps _ _ _ _ _ H) as Hk2.
        intros q n Hq. apply Hk2, Hk1, Hk. exact Hq.
      * inversion H; subst. intros q n Hq. apply Hk1, Hk. exact Hq.
Qed.

(** X11. A regular file in the way makes the directory step fail:
    [Path('/app/logs').mkdir(parents=True, exist_ok=True)] raises whenever
    [/app] or [/app/logs] is a regular file.  Whenever it succeeds
    [/app/logs] is a directory, every entry that was there is still there,
    and what has been added are directories only. *)
Theorem directory_step_and_regular_files (st : state) :
  (fs st !! ["app"] = Some File \/ fs st !! ["logs"; "app"] = Some File ->
   exists (e : exn) (st' : state),
     Fs.mkdir log_dir true true st = (Raise e, st'))
  /\ (forall st' : state,
        Fs.mkdir log_dir true true st = (Ret tt, st') ->
        Fs.is_dir (fs st') log_dir = true
        /\ forall q : list string,
             fs st' !! q = fs st !! q
             \/ (fs st !! q = None /\ fs st' !! q = Some Dir)).
Proof.
  assert (Hfiles : forall st' : state,
             Fs.mkdir log_dir true true st = (Ret tt, st') ->
             fs st !! ["app"] <> Some File
             /\ fs st !! ["logs"; "app"] <> Some File).
  { intros st' Hmk.
    pose proof (mkdir_makes_dir _ _ _ Hmk) as Hd.
    pose proof (mkdir_keeps _ _ _ _ _ _ Hmk) as Hk.
    destruct (is_dir_inv _ _ _ Hd) as [Hpar Hlogs].
    assert (Happ : fs st' !! ["app"] = Some Dir).
    { simpl in Hpar. destruct (fs st' !! ["app"]) as [[|]|];
        try discriminate Hpar. reflexivity. }
    split; intros Hf; apply Hk in Hf; congruence. }
  split.
  - intros Hfile.
    destruct (Fs.mkdir log_dir true true st) as [[[]|e] st'] eqn:Hmk.
    + exfalso. destruct (Hfiles st' eq_refl) as [Ha Hl].
      destruct Hfile; contradiction.
    + exists e, st'. reflexivity.
  - intros st' Hmk. split; [eapply mkdir_makes_dir; exact Hmk|].
    destruct (Hfiles st' Hmk) as [Ha Hl].
    destruct (mkdir_without_file log_dir st) as (st2 & Hmk2 & Hext).
    { intros q Hq Hs.
      unfold log_dir in Hs. destruct q as [|y q]; [contradiction|].
      apply suffix_cons_inv in Hs. destruct Hs as [->|Hs]; [exact Hl|].
      apply suffix_cons_inv in Hs. destruct Hs as [->|Hs]; [exact Ha|].
      apply suffix_nil_inv in Hs. discriminate Hs. }
    rewrite Hmk in Hmk2. inversion Hmk2; subst. exact Hext.
Qed.

(** ** The interval when the variable is unset or empty *)

(** X12. An unset [BACKUP_INTERVAL_HOURS] means 24 hours: startup, when it
    passes, yields 24 and the service runs with it.  The variable set to
    the empty string is not treated as unset: [int('')] fails and [main]
    ends with an exception before any attempt. *)
Theorem interval_unset_or_empty (w : World) (fuel : nat) (st : state) :
  (environ w !! "BACKUP_INTERVAL_HOURS" = None ->
   interval_hours w = Some 24
   /\ forall (h : Z) (st1 : state),
        startup w st = (Ret h, st1) ->
        h = 24 /\ main w fuel st = serve w fuel 24 st1)
  /\ (environ w !! "BACKUP_INTERVAL_HOURS" = Some EmptyString ->
      interval_hours w = None
      /\ exists (e : exn) (st' : state),
           main w fuel st = (Raise e, st') /\ nrun st' = nrun st).
Proof.
  split.
  - intros Hunset.
    assert (Hh : interval_hours w = Some 24).
    { unfold interval_hours, getenv_default. rewrite Hunset. reflexivity. }
    split; [exact Hh|].
    intros h st1 Hs.
    destruct (startup_ok _ _ _ _ Hs) as (_ & Hh' & _).
    assert (h = 24) by congruence. subst h.
    split; [reflexivity|]. rewrite main_startup, Hs. reflexivity.
  - intros Hempty.
    assert (Hh : interval_hours w = None).
    { unfold interval_hours, getenv_default. rewrite Hempty. reflexivity. }
    split; [exact Hh|].
    destruct (startup_bad_interval w st Hh) as (e & st1 & Hs).
    exists e, st1. rewrite main_startup, Hs.
    split; [reflexivity|]. apply (startup_frame _ _ _ _ Hs).
Qed.

(** ** The script as a program *)



Lemma open_append_log_file (f f' : gmap (list string) node) :
  open_append log_file f = inl f' ->
  Fs.is_dir f log_dir = true
  /\ Fs.is_dir f' log_dir = true
  /\ f' !! log_file = Some File
  /\ forall q : list string, q <> log_file -> f' !! q = f !! q.
Proof.
  unfold open_append, log_file, Fs.is_dir.
  change (Fs.resolve f ["logs"; "app"]) with (Fs.resolve f log_dir).
  destruct (Fs.resolve f log_dir) as [[|]|e] eqn:Hr.
  - destruct (f !! ["backup_service.log"; "logs"; "app"]) as [[|]|] eqn:Hl;
      intros H; inversion H; subst.
    + rewrite Hr. repeat split; auto.
    + change (Fs.resolve (<[["backup_service.log"; "logs"; "app"]:=File]> f)
                ["logs"; "app"])
        with (Fs.resolve (<[["backup_service.log"; "logs"; "app"]:=File]> f)
                log_dir).
      rewrite resolve_insert_deeper by (simpl; lia). rewrite Hr.
      repeat split.
      * apply lookup_insert_eq.
      * intros q Hq. apply lookup_insert_ne. congruence.
  - intros H; discriminate H.
  - destruct e; intros H; discriminate H.
Qed.

(** X13. Run as a program, the script needs [/app/logs] before [main] is
    even called: the logger opens its file while the module is loaded, so
    without that directory the process ends with exit code 1 having
    checked nothing, logged nothing and attempted nothing, whatever the
    environment holds. *)
Theorem script_needs_log_directory
  (w : World) (fuel : nat) (f : gmap (list string) node) :
  Fs.is_dir f log_dir = false ->
  exists e : open_error,
    script w fuel f = (ImportFailed e, boot f)
    /\ script_fate (fst (script w fuel f)) = ExitCode 1
    /\ trace (snd (script w fuel f)) = []
    /\ fs (snd (script w fuel f)) = f.
Proof.
  intros Hd.
  assert (H : exists e, open_append log_file f = inr e).
  { destruct (open_append log_file f) as [f'|e] eqn:Ho; [|eauto].
    apply open_append_log_file in Ho. destruct Ho as [Ho _]. congruence. }
  destruct H as [e He]. exists e. unfold script. rewrite He.
  repeat split.
Qed.


(** ** The retry warning and the first attempt *)

(** X15. In a turn whose sleep completes and whose attempt returns, the
    retry warning is logged exactly when the attempt returned [False], and
    the turn ends normally either way. *)
Theorem warning_marks_failed_attempts
  (w : World) (h secs : Z) (st : state) (b : bool) :
  sleep_outcome secs (sleeps w (nsleep st)) = Ret tt ->
  attempt_result (runs w (nrun st)) = Ret b ->
  exists evs : list event,
    trace (snd (loop_iteration w h secs st)) = trace st ++ evs
    /\ fst (loop_iteration w h secs st) = Ret Next
    /\ ((exists msg : string, In (Log WARNING msg) evs) <-> b = false).
Proof.
  intros Hs Hr. rewrite (turn_attempt w h secs st b Hs Hr).
  eexists. split; [reflexivity|]. split; [reflexivity|].
  split.
  - intros [msg H].
    apply in_app_or in H. destruct H as [H|H]; [not_among H|].
    apply in_app_or in H. destruct H as [H|H].
    + exfalso. exact (attempt_events_no_warning _ _ H).
    + destruct b; [destruct H | reflexivity].
  - intros ->. exists "Backup failed, will retry at next interval".
    apply in_or_app. right. apply in_or_app. right. left. reflexivity.
Qed.

(** X16. The first backup is attempted at once: when startup passes, the
    timing skeleton of the whole run is one attempt, made before any
    sleep, followed by a skeleton in which every attempt comes right after
    a sleep of exactly the configured interval. *)
Theorem first_attempt_is_immediate
  (w : World) (fuel : nat) (f : gmap (list string) node) (h : Z)
  (st1 : state) :
  startup w (boot f) = (Ret h, st1) ->
  exists rest : list tick,
    schedule (trace (snd (main w fuel (boot f)))) = Attempt :: rest
    /\ paced (h * 3600) false rest = true.
Proof.
  intros Hs.
  destruct (startup_frame _ _ _ _ Hs) as (_ & _ & _ & _ & Hsched).
  simpl in Hsched.
  rewrite main_startup, Hs, serve_unfold, run_backup_spec.
  match goal with
  | |- context [attempt_result ?c] => destruct (attempt_result c)
  end.
  - match goal with
    | |- context [main_loop w fuel h ?secs ?s] =>
        destruct (loop_summary w h secs fuel s)
          as (evs & dt & dr & ds & Hst & _ & _ & Hp & _)
    end.
    exists (schedule evs). rewrite Hst, !trace_evolve.
    unfold emit; cbn [trace].
    rewrite !schedule_app, Hsched, schedule_attempt_events.
    split; [reflexivity | exact Hp].
  - exists []. cbn [snd]. rewrite trace_evolve. unfold emit; cbn [trace].
    rewrite !schedule_app, Hsched, schedule_attempt_events.
    split; reflexivity.
Qed.

(** ** These properties on sample worlds *)

Lemma loop_stops_only_on_interrupt_witness :
  List.last (trace (snd (main_loop stopped_asleep 5 24 86400 (boot fs_ok))))
    Kill
  = Log INFO shutdown_message.
Proof.
  apply (proj1 (loop_stops_only_on_interrupt
                  stopped_asleep 24 86400 5 (boot fs_ok))).
  vm_compute. reflexivity.
Defined.

Lemma service_runs_until_interrupted_witness :
  fst (main flaky_sleep 6 (boot fs_ok)) = Ret Alive
  /\ fate_of (fst (main flaky_sleep 6 (boot fs_ok))) = StillRunning.
Proof.
  apply (service_runs_until_interrupted flaky_sleep fs_ok 24
           (snd (startup flaky_sleep (boot fs_ok))) 6).
  - reflexivity.
  - intros k. simpl. destruct (Nat.even k); discriminate.
  - intros k. discriminate.
  - intros k e. unfold flaky_sleep; cbn [sleeps].
    rewrite Nat.even_succ, <- Nat.negb_even.
    destruct (Nat.even k); [intros _; reflexivity|].
    intros H. vm_compute in H. discriminate H.
Defined.

Lemma interrupt_during_backoff_witness :
  main_loop interrupted_backoff 3 24 86400 (boot fs_ok) =
  (Raise KeyboardInterrupt,
   evolve (boot fs_ok)
     [Log INFO (sleeping_message 24);
      Log ERROR (crash_message (PyException "clock jumped"))]
     0 0 2)
  /\ fate_of (fst (main_loop interrupted_backoff 3 24 86400 (boot fs_ok)))
     = KilledBySigint.
Proof.
  apply (interrupt_during_backoff_escapes interrupted_backoff 24 86400 2
           (boot fs_ok) (PyException "clock jumped")); reflexivity.
Defined.

Lemma steady_loop_duration_witness :
  now (snd (main_loop mixed 4 1 3600 (boot fs_ok))) =
  now (boot fs_ok) + Z.of_nat 4 * 3600
    + attempts_time mixed (nrun (boot fs_ok)) 4
  /\ now (snd (main_loop mixed 4 1 3600 (boot fs_ok)))
     <= now (boot fs_ok) + Z.of_nat 4 * (3600 + 300).
Proof.
  apply (steady_loop_duration mixed 1 3600).
  - unfold sleep_max. lia.
  - intros k. reflexivity.
  - intros k. destruct k as [|[|[|k]]]; simpl; discriminate.
Defined.

Lemma system_exit_witness :
  fst (main no_bucket 3 (boot fs_ok)) = Raise (SystemExit 1).
Proof.
  apply (proj1 (system_exit_only_for_missing_config
                  no_bucket 3 (boot fs_ok) 1)).
  split; [reflexivity|]. right. reflexivity.
Defined.

Lemma exit_zero_witness :
  fst (main stopped_asleep 5 (boot fs_ok)) = Ret Stopped
  /\ List.last (trace (snd (main stopped_asleep 5 (boot fs_ok)))) Kill
     = Log INFO shutdown_message.
Proof.
  apply (exit_zero_only_after_shutdown stopped_asleep 5 (boot fs_ok)).
  vm_compute. reflexivity.
Defined.

Lemma initial_backup_result_witness :
  main stuck 2 (boot fs_ok) =
  main_loop stuck 2 24 (24 * 3600)
    (evolve (snd (startup stuck (boot fs_ok)))
       (Log INFO "Running initial backup..." :: attempt_events (runs stuck 0%nat))
       (attempt_time (runs stuck 0%nat)) 1 0)
  /\ forall msg : string,
       ~ In (Log WARNING msg)
           (trace (snd (startup stuck (boot fs_ok)))
              ++ Log INFO "Running initial backup..."
              :: attempt_events (runs stuck 0%nat)).
Proof.
  apply (initial_backup_result_ignored stuck 2 fs_ok 24
           (snd (startup stuck (boot fs_ok)))).
  - reflexivity.
  - discriminate.
Defined.

Lemma directory_failure_witness :
  main calm 3 (boot fs_blocked) =
  (Raise (OSError ENOTDIR "Not a directory"),
   emit (Log INFO "Starting Auto-Apply backup service...") (boot fs_blocked))
  /\ fate_of (fst (main calm 3 (boot fs_blocked))) = ExitCode 1
  /\ trace (emit (Log INFO "Starting Auto-Apply backup service...")
              (boot fs_blocked))
     = trace (boot fs_blocked)
         ++ [Log INFO "Starting Auto-Apply backup service..."]
  /\ nrun (emit (Log INFO "Starting Auto-Apply backup service...")
             (boot fs_blocked))
     = nrun (boot fs_blocked).
Proof.
  apply (directory_failure_is_fatal calm 3 (boot fs_blocked)).
  - reflexivity.
  - vm_compute. reflexivity.
Defined.

Lemma directory_step_witness :
  exists (e : exn) (st' : state),
    Fs.mkdir log_dir true true (boot fs_blocked) = (Raise e, st').
Proof.
  apply (proj1 (directory_step_and_regular_files (boot fs_blocked))).
  left. reflexivity.
Defined.

Lemma interval_unset_witness :
  interval_hours calm = Some 24
  /\ forall (h : Z) (st1 : state),
       startup calm (boot fs_ok) = (Ret h, st1) ->
       h = 24 /\ main calm 2 (boot fs_ok) = serve calm 2 24 st1.
Proof.
  apply (proj1 (interval_unset_or_empty calm 2 (boot fs_ok))).
  reflexivity.
Defined.

Lemma script_needs_log_directory_witness :
  exists e : open_error,
    script calm 3 ∅ = (ImportFailed e, boot ∅)
    /\ script_fate (fst (script calm 3 ∅)) = ExitCode 1
    /\ trace (snd (script calm 3 ∅)) = []
    /\ fs (snd (script calm 3 ∅)) = ∅.
Proof.
  apply (script_needs_log_directory calm 3 ∅). reflexivity.
Defined.


Lemma warning_marks_failed_attempts_witness :
  exists evs : list event,
    trace (snd (loop_iteration stuck 24 86400 (boot fs_ok)))
    = trace (boot fs_ok) ++ evs
    /\ fst (loop_iteration stuck 24 86400 (boot fs_ok)) = Ret Next
    /\ ((exists msg : string, In (Log WARNING msg) evs) <-> false = false).
Proof.
  apply (warning_marks_failed_attempts stuck 24 86400 (boot fs_ok) false);
    reflexivity.
Defined.

Lemma first_attempt_is_immediate_witness :
  exists rest : list tick,
    schedule (trace (snd (main mixed 3 (boot fs_ok)))) = Attempt :: rest
    /\ paced (1 * 3600) false rest = true.
Proof.
  apply (first_attempt_is_immediate mixed 3 fs_ok 1
           (snd (startup mixed (boot fs_ok)))).
  reflexivity.
Defined.
